(** * deep-analysis-mcp: the tool-call orchestrator and the file operations

    A shallow embedding of [internal/client/deepanalysis.go]
    (DeepAnalysisClient.Handle and its helpers) and of the fileops
    [Handler] (ReadFile, GrepFiles, GlobFiles).

    Effects are explicit: the orchestrator threads a [State] holding the
    conversation map [conv] and a ghost trace of the effects it performs
    (file reads, tool executions, remote calls, writes to [conv]).  The
    remote Responses API, the [FileOps] implementation, encoding/json and
    the ambient context are parameters of an [Env]; theorems quantify over
    all of them.  One Handle invocation is modelled sequentially: the
    mutex-protected map is only touched by this invocation. *)

From stdpp Require Import base gmap strings list pretty.
From Stdlib Require Import Ascii.

(** Go's [(T, error)] pairs: a value or the error's [Error()] text. *)
Inductive result (A : Type) : Type :=
| Ok (a : A)
| Err (e : string).
Arguments Ok {A} a.
Arguments Err {A} e.

(** Characters that have no escape in Rocq string literals. *)
Definition nl : string := String (Ascii.ascii_of_nat 10) EmptyString.
Definition dq : string := String (Ascii.ascii_of_nat 34) EmptyString.

(** ** The mcp-go request accessors used by Handle

    [mcp.CallToolRequest] carries a JSON object of arguments.  The
    accessors below follow mcp-go's [RequireString], [GetString],
    [GetBool] and [GetStringSlice].  JSON numbers only matter through
    their comparison with zero, so they are kept as [Z]. *)
Module Mcp.

Set Warnings "-register-all".

Inductive Value : Type :=
| VString (s : string)
| VBool (b : bool)
| VNumber (z : Z)
| VArray (l : list Value)
| VNull.

Record CallToolRequest : Type := { arguments : list (string * Value) }.

Fixpoint lookup_arg (key : string) (args : list (string * Value)) : option Value :=
  match args with
  | [] => None
  | (k, v) :: rest => if String.eqb k key then Some v else lookup_arg key rest
  end.

Definition RequireString (r : CallToolRequest) (key : string) : result string :=
  match lookup_arg key (arguments r) with
  | Some (VString s) => Ok s
  | Some _ => Err ("argument " +:+ dq +:+ key +:+ dq +:+ " is not a string")
  | None => Err ("required argument " +:+ dq +:+ key +:+ dq +:+ " not found")
  end.

Definition GetString (r : CallToolRequest) (key default : string) : string :=
  match lookup_arg key (arguments r) with
  | Some (VString s) => s
  | _ => default
  end.

(** strconv.ParseBool *)
Definition ParseBool (s : string) : option bool :=
  if existsb (String.eqb s) ["1"; "t"; "T"; "TRUE"; "true"; "True"] then Some true
  else if existsb (String.eqb s) ["0"; "f"; "F"; "FALSE"; "false"; "False"] then Some false
  else None.

Definition GetBool (r : CallToolRequest) (key : string) (default : bool) : bool :=
  match lookup_arg key (arguments r) with
  | Some (VBool b) => b
  | Some (VString s) => match ParseBool s with Some b => b | None => default end
  | Some (VNumber z) => negb (Z.eqb z 0)
  | _ => default
  end.

Fixpoint strings_of (l : list Value) : list string :=
  match l with
  | [] => []
  | VString s :: rest => s :: strings_of rest
  | _ :: rest => strings_of rest
  end.

Definition GetStringSlice (r : CallToolRequest) (key : string) (default : list string)
  : list string :=
  match lookup_arg key (arguments r) with
  | Some (VArray l) => strings_of l
  | _ => default
  end.

(** The two shapes of [*mcp.CallToolResult] Handle produces. *)
Inductive CallToolResult : Type :=
| NewToolResultText (text : string)
| NewToolResultError (text : string).

End Mcp.

Module Client.
Import Mcp.

Definition defaultModel : string := "gpt-5-pro".
Definition maxIterations : nat := 10.

(** *** The parts of the Responses API the code reads and writes *)

Record ContentItem : Type := { ci_Type : string; ci_Text : string }.

Record OutputItem : Type := {
  oi_Type : string;
  oi_CallID : string;
  oi_Name : string;
  oi_Arguments : string;
  oi_Content : list ContentItem }.

Record Response : Type := { resp_ID : string; resp_Output : list OutputItem }.

Inductive Role : Type := EasyInputMessageRoleUser.

Inductive InputItem : Type :=
| InputMessage (text : string) (role : Role)
| FunctionCallOutput (call_id : string) (output : string).

Record Params : Type := {
  p_Model : string;
  p_Instructions : option string;
  p_Tools : list string;
  p_Input : list InputItem;
  p_PreviousResponseID : option string }.

(** buildTools: the three strict declarations, identified by name. *)
Definition buildTools : list string := ["read_file"; "grep_files"; "glob_files"].

(** buildSystemPrompt: the fixed instructions (their text is irrelevant here). *)
Definition buildSystemPrompt : string := "You are an expert deep analysis AI ...".

Record ToolCall : Type := { tc_ID : string; tc_Name : string; tc_Arguments : string }.

(** *** Effects, environment and state *)

(** Ghost trace of the effects of one Handle run. *)
Inductive Event : Type :=
| EvAttach (path : string) (r : result string)      (* fileOps.ReadFile of an attached file *)
| EvExec (name args : string) (r : result string)   (* executeFunction for one tool call *)
| EvRemote (p : Params) (r : result Response)       (* c.client.Responses.New *)
| EvSet (id respID : string)                        (* setRespID *)
| EvClear (id : string).                            (* clearRespID *)

(** The [FileOps] interface; the first argument is [ctx.Err()] at the call. *)
Record FileOps : Type := {
  fo_ReadFile : option string -> string -> result string;
  fo_GrepFiles : option string -> string -> string -> bool -> result string;
  fo_GlobFiles : option string -> string -> result string }.

(** json.Unmarshal into the three argument structs of executeFunction. *)
Record Json : Type := {
  unmarshal_read : string -> result string;
  unmarshal_grep : string -> result (string * string * bool);
  unmarshal_glob : string -> result string }.

Record Env : Type := {
  (* ctx.Err() after a given number of effects: the caller may cancel at any time *)
  env_ctx : nat -> option string;
  (* Responses.New(ctx, params): sees ctx.Err() and everything done so far *)
  env_remote : option string -> list Event -> Params -> result Response;
  env_fileOps : FileOps;
  env_json : Json }.

Record State : Type := { conv : gmap string string; trace : list Event }.

Definition ctx_now (env : Env) (st : State) : option string :=
  env_ctx env (length (trace st)).

Definition record (st : State) (ev : Event) : State :=
  {| conv := conv st; trace := trace st ++ [ev] |}.

Definition getRespID (st : State) (conversationID : string) : string :=
  match conv st !! conversationID with Some v => v | None => "" end.

Definition setRespID (st : State) (conversationID responseID : string) : State :=
  {| conv := <[conversationID := responseID]> (conv st);
     trace := trace st ++ [EvSet conversationID responseID] |}.

Definition clearRespID (st : State) (conversationID : string) : State :=
  {| conv := delete conversationID (conv st);
     trace := trace st ++ [EvClear conversationID] |}.

(** c.client.Responses.New(ctx, params) *)
Definition call_remote (env : Env) (params : Params) (st : State)
  : result Response * State :=
  let r := env_remote env (ctx_now env st) (trace st) params in
  (r, record st (EvRemote params r)).

(** *** Pure helpers *)

Fixpoint extract_calls (items : list OutputItem) : list ToolCall :=
  match items with
  | [] => []
  | item :: rest =>
      if String.eqb (oi_Type item) "function_call"
      then {| tc_ID := oi_CallID item; tc_Name := oi_Name item;
              tc_Arguments := oi_Arguments item |} :: extract_calls rest
      else extract_calls rest
  end.

Definition extractToolCalls (response : Response) : list ToolCall :=
  extract_calls (resp_Output response).

Fixpoint content_texts (cs : list ContentItem) : list string :=
  match cs with
  | [] => []
  | c :: rest =>
      if String.eqb (ci_Type c) "text" || String.eqb (ci_Type c) "output_text"
      then ci_Text c :: content_texts rest
      else content_texts rest
  end.

Fixpoint text_parts (items : list OutputItem) : list string :=
  match items with
  | [] => []
  | item :: rest =>
      if String.eqb (oi_Type item) "message"
      then content_texts (oi_Content item) ++ text_parts rest
      else text_parts rest
  end.

(** [if result != "" { result += "\n" }; result += part] *)
Fixpoint concat_text (result : string) (parts : list string) : string :=
  match parts with
  | [] => result
  | part :: rest =>
      concat_text ((if String.eqb result "" then result else result +:+ nl) +:+ part) rest
  end.

Definition extractTextContent (response : Response) : string :=
  concat_text "" (text_parts (resp_Output response)).

(** joinStrings: [if i > 0 { result += sep }; result += part] *)
Fixpoint join_from (first : bool) (result : string) (parts : list string) (sep : string)
  : string :=
  match parts with
  | [] => result
  | part :: rest => join_from false ((if first then result else result +:+ sep) +:+ part) rest sep
  end.

Definition joinStrings (parts : list string) (sep : string) : string :=
  join_from true "" parts sep.

(** *** executeFunction and the tool-execution step *)

Definition executeFunction (env : Env) (ctx : option string) (name argsJSON : string)
  : result string :=
  if String.eqb name "read_file" then
    match unmarshal_read (env_json env) argsJSON with
    | Err e => Err ("invalid arguments: " +:+ e)
    | Ok path => fo_ReadFile (env_fileOps env) ctx path
    end
  else if String.eqb name "grep_files" then
    match unmarshal_grep (env_json env) argsJSON with
    | Err e => Err ("invalid arguments: " +:+ e)
    | Ok (pattern, path, ignoreCase) => fo_GrepFiles (env_fileOps env) ctx pattern path ignoreCase
    end
  else if String.eqb name "glob_files" then
    match unmarshal_glob (env_json env) argsJSON with
    | Err e => Err ("invalid arguments: " +:+ e)
    | Ok pattern => fo_GlobFiles (env_fileOps env) ctx pattern
    end
  else Err ("unknown function: " +:+ name).

(** [if err != nil { result = fmt.Sprintf("Error: %v", err) }] *)
Definition tool_output (r : result string) : string :=
  match r with
  | Ok result => result
  | Err e => "Error: " +:+ e
  end.

(** The inner [for _, toolCall := range toolCalls] loop of Handle. *)
Fixpoint execute_tool_calls (env : Env) (toolCalls : list ToolCall) (st : State)
  : list InputItem * State :=
  match toolCalls with
  | [] => ([], st)
  | toolCall :: rest =>
      let r := executeFunction env (ctx_now env st) (tc_Name toolCall) (tc_Arguments toolCall) in
      let st := record st (EvExec (tc_Name toolCall) (tc_Arguments toolCall) r) in
      let '(toolOutputs, st) := execute_tool_calls env rest st in
      (FunctionCallOutput (tc_ID toolCall) (tool_output r) :: toolOutputs, st)
  end.

(** *** Attached files and the prompt *)

Definition attached_part (filePath : string) (r : result string) : string :=
  match r with
  | Err e => "File: " +:+ filePath +:+ nl +:+ "Error: " +:+ e +:+ nl
  | Ok content =>
      "File: " +:+ filePath +:+ nl +:+ "```" +:+ nl +:+ content +:+ nl +:+ "```" +:+ nl
  end.

(** The [for _, filePath := range files] loop reading attached files. *)
Fixpoint read_files (env : Env) (files : list string) (st : State) : list string * State :=
  match files with
  | [] => ([], st)
  | filePath :: rest =>
      let r := fo_ReadFile (env_fileOps env) (ctx_now env st) filePath in
      let st := record st (EvAttach filePath r) in
      let '(fileParts, st) := read_files env rest st in
      (attached_part filePath r :: fileParts, st)
  end.

Definition files_block (fileParts : list string) : string :=
  nl +:+ "Attached Files:" +:+ nl +:+ joinStrings fileParts nl +:+ nl.

Definition read_attached (env : Env) (files : list string) (st : State) : string * State :=
  match files with
  | [] => ("", st)
  | _ => let '(fileParts, st) := read_files env files st in (files_block fileParts, st)
  end.

Definition build_prompt (context filesContent task : string) : string :=
  if negb (String.eqb context "") && negb (String.eqb filesContent "") then
    "Context:" +:+ nl +:+ context +:+ filesContent +:+ nl +:+ "Task:" +:+ nl +:+ task
  else if negb (String.eqb context "") then
    "Context:" +:+ nl +:+ context +:+ nl +:+ nl +:+ "Task:" +:+ nl +:+ task
  else if negb (String.eqb filesContent "") then
    filesContent +:+ nl +:+ "Task:" +:+ nl +:+ task
  else task.

Definition initial_params (prompt prevResponseID : string) : Params :=
  {| p_Model := defaultModel;
     p_Instructions := Some buildSystemPrompt;
     p_Tools := buildTools;
     p_Input := [InputMessage prompt EasyInputMessageRoleUser];
     p_PreviousResponseID :=
       if String.eqb prevResponseID "" then None else Some prevResponseID |}.

Definition followup_params (previousID : string) (toolOutputs : list InputItem) : Params :=
  {| p_Model := defaultModel;
     p_Instructions := None;
     p_Tools := buildTools;
     p_Input := toolOutputs;
     p_PreviousResponseID := Some previousID |}.

Definition save_resp (conversationID : string) (response : Response) (st : State) : State :=
  if String.eqb conversationID "" then st else setRespID st conversationID (resp_ID response).

(** *** The tool-execution loop: [for i := 0; i < maxIterations; i++]
    with [n] the number of iterations left. *)
Fixpoint tool_loop (env : Env) (conversationID : string) (n : nat) (response : Response)
  (st : State) : CallToolResult * State :=
  match n with
  | 0 => (NewToolResultError "Max function call iterations reached", st)
  | S n' =>
      match extractToolCalls response with
      | [] =>
          let text := extractTextContent response in
          if String.eqb text "" then (NewToolResultError "No text content in response", st)
          else (NewToolResultText text, st)
      | toolCalls =>
          let '(toolOutputs, st) := execute_tool_calls env toolCalls st in
          let '(r, st) := call_remote env (followup_params (resp_ID response) toolOutputs) st in
          match r with
          | Err e => (NewToolResultError ("OpenAI API error: " +:+ e), st)
          | Ok response' => tool_loop env conversationID n' response' (save_resp conversationID response' st)
          end
      end
  end.

Definition effective_id (conversationID : string) : string :=
  if String.eqb conversationID "" then "default" else conversationID.

(** Handle. *)
Definition Handle (env : Env) (request : CallToolRequest) (st : State) : CallToolResult * State :=
  match RequireString request "task" with
  | Err e => (NewToolResultError e, st)
  | Ok task =>
      let context := GetString request "context" "" in
      let files := GetStringSlice request "files" [] in
      let continueConversation := GetBool request "continue" true in
      let conversationID := effective_id (GetString request "conversation_id" "") in
      let '(filesContent, st) := read_attached env files st in
      let prompt := build_prompt context filesContent task in
      let '(prevResponseID, st) :=
        if continueConversation then (getRespID st conversationID, st)
        else ("", clearRespID st conversationID) in
      let '(r, st) := call_remote env (initial_params prompt prevResponseID) st in
      match r with
      | Err e => (NewToolResultError ("OpenAI API error: " +:+ e), st)
      | Ok response => tool_loop env conversationID maxIterations response (save_resp conversationID response st)
      end
  end.

End Client.

(** ** The fileops [Handler]: ReadFile, GrepFiles and GlobFiles

    The operating system is a parameter [Os]; every call that touches the
    filesystem or the environment is recorded as an [OsCall], so that
    "no filesystem access" is the empty list of calls.  [ctx k] is
    [ctx.Err()] after [k] such calls. *)
Module Fileops.

Record FileInfo : Type := { fi_Size : Z; fi_IsDir : bool }.

Inductive OsCall : Type :=
| OsUserHomeDir
| OsStat (path : string)
| OsReadFile (path : string)
| OsGlob (pattern : string)
| OsOpen (path : string).

Record Os : Type := {
  os_UserHomeDir : result string;
  os_Stat : string -> result FileInfo;
  os_ReadFile : string -> result string;
  filepath_Glob : string -> result (list string);
  (* os.Open followed by a bufio.Scanner: the lines scanned, and the
     scanner error if the scan stopped on one *)
  os_Open_scan : string -> result (list string * option string);
  filepath_Join : string -> string -> string;
  regexp_Compile : string -> result (string -> bool) }.

Definition maxFileSize : Z := 5 * 1024 * 1024.

(** filepath.Separator of a Unix build. *)
Definition Separator : ascii := "/"%char.

(** strings.Join *)
Fixpoint Join (elems : list string) (sep : string) : string :=
  match elems with
  | [] => ""
  | [e] => e
  | e :: rest => e +:+ sep +:+ Join rest sep
  end.

Definition unsupported_path : string :=
  "unsupported path format: only ~/ is supported, not ~username".

(** The block that each of the three operations runs on its path argument:
    [if strings.HasPrefix(path, "~") { if len(path) > 1 && path[1] != '/'
    && path[1] != filepath.Separator { return ... } home, err :=
    os.UserHomeDir(); ...; path = filepath.Join(home, path[1:]) }] *)
Definition expand_home (os : Os) (path : string) : result string * list OsCall :=
  if String.prefix "~" path then
    match String.get 1 path with
    | Some c =>
        if negb (Ascii.eqb c "/"%char) && negb (Ascii.eqb c Separator)
        then (Err unsupported_path, [])
        else match os_UserHomeDir os with
             | Err e => (Err ("failed to get home directory: " +:+ e), [OsUserHomeDir])
             | Ok home =>
                 (Ok (filepath_Join os home (String.substring 1 (String.length path - 1) path)),
                  [OsUserHomeDir])
             end
    | None =>
        match os_UserHomeDir os with
        | Err e => (Err ("failed to get home directory: " +:+ e), [OsUserHomeDir])
        | Ok home =>
            (Ok (filepath_Join os home (String.substring 1 (String.length path - 1) path)),
             [OsUserHomeDir])
        end
    end
  else (Ok path, []).

Definition ReadFile (os : Os) (ctx : nat -> option string) (path : string)
  : result string * list OsCall :=
  match ctx 0 with
  | Some e => (Err e, [])
  | None =>
      let '(r, calls) := expand_home os path in
      match r with
      | Err e => (Err e, calls)
      | Ok path =>
          let calls := calls ++ [OsStat path] in
          match os_Stat os path with
          | Err e => (Err ("failed to stat file: " +:+ e), calls)
          | Ok info =>
              if Z.gtb (fi_Size info) maxFileSize then
                (Err ("file too large (" +:+ pretty (fi_Size info) +:+ " bytes, max "
                      +:+ pretty maxFileSize +:+ " bytes): consider using grep_files instead"),
                 calls)
              else match ctx (length calls) with
                   | Some e => (Err e, calls)
                   | None =>
                       let calls := calls ++ [OsReadFile path] in
                       match os_ReadFile os path with
                       | Err e => (Err ("failed to read file: " +:+ e), calls)
                       | Ok content => (Ok content, calls)
                       end
                   end
          end
      end
  end.

(** The scan of one file: [lineNum] lines already read, matches so far. *)
Fixpoint scan_lines (ctx : option string) (re : string -> bool) (lineNum : nat)
  (lines : list string) (fileResults : list string) : result (list string) :=
  match lines with
  | [] => Ok fileResults
  | line :: rest =>
      match ctx with
      | Some e => Err e
      | None =>
          let lineNum := S lineNum in
          let fileResults :=
            if re line then fileResults ++ [pretty lineNum +:+ ":" +:+ line] else fileResults in
          scan_lines ctx re lineNum rest fileResults
      end
  end.

(** [for _, path := range matches] in GrepFiles. *)
Fixpoint grep_loop (os : Os) (ctx : nat -> option string) (re : string -> bool)
  (matches : list string) (results : list string) (calls : list OsCall)
  : result (list string) * list OsCall :=
  match matches with
  | [] => (Ok results, calls)
  | path :: rest =>
      match ctx (length calls) with
      | Some e => (Err e, calls)
      | None =>
          let calls := calls ++ [OsStat path] in
          match os_Stat os path with
          | Err _ => grep_loop os ctx re rest results calls
          | Ok info =>
              if fi_IsDir info then grep_loop os ctx re rest results calls
              else
                let calls := calls ++ [OsOpen path] in
                match os_Open_scan os path with
                | Err _ => grep_loop os ctx re rest results calls
                | Ok (lines, scanErr) =>
                    match scan_lines (ctx (length calls)) re 0 lines [] with
                    | Err e => (Err e, calls)
                    | Ok fileResults =>
                        match scanErr with
                        | Some e => (Err ("error scanning " +:+ path +:+ ": " +:+ e), calls)
                        | None =>
                            let results :=
                              match fileResults with
                              | [] => results
                              | _ => results ++ [nl +:+ path +:+ ":"] ++ fileResults
                              end in
                            grep_loop os ctx re rest results calls
                        end
                    end
                end
          end
      end
  end.

Definition GrepFiles (os : Os) (ctx : nat -> option string) (pattern pathPattern : string)
  (ignoreCase : bool) : result string * list OsCall :=
  match ctx 0 with
  | Some e => (Err e, [])
  | None =>
      let flags := if ignoreCase then "(?i)" else "" in
      match regexp_Compile os (flags +:+ pattern) with
      | Err e => (Err ("invalid regex pattern: " +:+ e), [])
      | Ok re =>
          let '(r, calls) := expand_home os pathPattern in
          match r with
          | Err e => (Err e, calls)
          | Ok pathPattern =>
              let calls := calls ++ [OsGlob pathPattern] in
              match filepath_Glob os pathPattern with
              | Err e => (Err ("invalid path pattern: " +:+ e), calls)
              | Ok [] => (Ok "No files matched the pattern", calls)
              | Ok matches =>
                  let '(r, calls) := grep_loop os ctx re matches [] calls in
                  match r with
                  | Err e => (Err e, calls)
                  | Ok [] => (Ok "No matches found", calls)
                  | Ok results => (Ok (Join results nl), calls)
                  end
              end
          end
      end
  end.

(** [for _, path := range matches] in GlobFiles. *)
Fixpoint glob_loop (os : Os) (ctx : nat -> option string) (matches : list string)
  (results : list string) (calls : list OsCall) : result (list string) * list OsCall :=
  match matches with
  | [] => (Ok results, calls)
  | path :: rest =>
      match ctx (length calls) with
      | Some e => (Err e, calls)
      | None =>
          let calls := calls ++ [OsStat path] in
          match os_Stat os path with
          | Err _ => glob_loop os ctx rest results calls
          | Ok info =>
              glob_loop os ctx rest
                (results ++ [if fi_IsDir info then path +:+ "/" else path]) calls
          end
      end
  end.

Definition GlobFiles (os : Os) (ctx : nat -> option string) (pattern : string)
  : result string * list OsCall :=
  match ctx 0 with
  | Some e => (Err e, [])
  | None =>
      let '(r, calls) := expand_home os pattern in
      match r with
      | Err e => (Err e, calls)
      | Ok pattern =>
          let calls := calls ++ [OsGlob pattern] in
          match filepath_Glob os pattern with
          | Err e => (Err ("invalid glob pattern: " +:+ e), calls)
          | Ok [] => (Ok "No files matched the pattern", calls)
          | Ok matches =>
              let '(r, calls) := glob_loop os ctx matches [] calls in
              match r with
              | Err e => (Err e, calls)
              | Ok results => (Ok (Join results nl), calls)
              end
          end
      end
  end.

End Fileops.

(** ** Ghost definitions used to state properties of the orchestrator *)
Module Ghost.
Import Mcp Client.

(** The conversation map obtained by replaying the recorded writes. *)
Fixpoint replay (m : gmap string string) (l : list Event) : gmap string string :=
  match l with
  | [] => m
  | EvSet k v :: rest => replay (<[k := v]> m) rest
  | EvClear k :: rest => replay (delete k m) rest
  | _ :: rest => replay m rest
  end.

Definition is_other (ev : Event) : Prop :=
  match ev with
  | EvAttach _ _ | EvExec _ _ _ | EvClear _ => True
  | _ => False
  end.

Definition is_remote (ev : Event) : bool :=
  match ev with EvRemote _ _ => true | _ => false end.

Definition count_remote (l : list Event) : nat := length (List.filter is_remote l).

(** Shape of the effects of Handle with respect to [conv]: every
    successful remote call is immediately followed by the write of its
    response id under [cid]; nothing else writes; a failed remote call
    is the last effect and yields the remote-service error. *)
Inductive writes_ok (cid : string) (res : CallToolResult) : list Event -> Prop :=
| wo_nil : writes_ok cid res []
| wo_other ev l : is_other ev -> writes_ok cid res l -> writes_ok cid res (ev :: l)
| wo_ok p r l : writes_ok cid res l ->
    writes_ok cid res (EvRemote p (Ok r) :: EvSet cid (resp_ID r) :: l)
| wo_err p e : res = NewToolResultError ("OpenAI API error: " +:+ e) ->
    writes_ok cid res [EvRemote p (Err e)].

Definition exec_event (tc : ToolCall) (r : result string) : Event :=
  EvExec (tc_Name tc) (tc_Arguments tc) r.

Definition output_item (tc : ToolCall) (r : result string) : InputItem :=
  FunctionCallOutput (tc_ID tc) (tool_output r).

(** The attached-files block built from the read results [rs]. *)
Definition attached_block (files : list string) (rs : list (result string)) : string :=
  match files with
  | [] => ""
  | _ => files_block (zip_with attached_part files rs)
  end.

(** The two per-call failures of executeFunction that do not depend on the
    file operations: an argument payload json.Unmarshal rejects, and a
    tool name outside the three declared ones. *)
Inductive call_fails (env : Env) : ToolCall -> string -> Prop :=
| fails_read tc e : tc_Name tc = "read_file" ->
    unmarshal_read (env_json env) (tc_Arguments tc) = Err e ->
    call_fails env tc ("invalid arguments: " +:+ e)
| fails_grep tc e : tc_Name tc = "grep_files" ->
    unmarshal_grep (env_json env) (tc_Arguments tc) = Err e ->
    call_fails env tc ("invalid arguments: " +:+ e)
| fails_glob tc e : tc_Name tc = "glob_files" ->
    unmarshal_glob (env_json env) (tc_Arguments tc) = Err e ->
    call_fails env tc ("invalid arguments: " +:+ e)
| fails_unknown tc : tc_Name tc ∉ buildTools ->
    call_fails env tc ("unknown function: " +:+ tc_Name tc).

(** Two environments in which the remote client, the file operations and
    the JSON decoder return the same results at every point in time, each
    under its own context. *)
Definition same_observations (env1 env2 : Env) : Prop :=
  (forall t tr p, env_remote env1 (env_ctx env1 t) tr p = env_remote env2 (env_ctx env2 t) tr p) /\
  (forall t path, fo_ReadFile (env_fileOps env1) (env_ctx env1 t) path =
                  fo_ReadFile (env_fileOps env2) (env_ctx env2 t) path) /\
  (forall t pat path ic, fo_GrepFiles (env_fileOps env1) (env_ctx env1 t) pat path ic =
                         fo_GrepFiles (env_fileOps env2) (env_ctx env2 t) pat path ic) /\
  (forall t pat, fo_GlobFiles (env_fileOps env1) (env_ctx env1 t) pat =
                 fo_GlobFiles (env_fileOps env2) (env_ctx env2 t) pat) /\
  env_json env1 = env_json env2.

(** The text parts with the leading empty ones removed. *)
Fixpoint skip_leading_empty (l : list string) : list string :=
  match l with
  | [] => []
  | p :: rest => if String.eqb p "" then skip_leading_empty rest else l
  end.

(** Every tool execution recorded in [l] ran executeFunction with the
    context of its moment: the event at position [t + i] of the trace
    was produced while [length (trace st) = t + i]. *)
Fixpoint execs_ok (env : Env) (t : nat) (l : list Event) : Prop :=
  match l with
  | [] => True
  | EvExec name args r :: rest =>
      r = executeFunction env (env_ctx env t) name args /\ execs_ok env (S t) rest
  | _ :: rest => execs_ok env (S t) rest
  end.

(** One round of the tool loop for [resp]: every tool call of [resp] is
    executed, in order, and then the follow-up remote call is issued with
    their outputs. *)
Definition tool_round (resp : Response) (l : list Event) : Prop :=
  exists rs r post,
    length rs = length (extractToolCalls resp) /\
    l = zip_with exec_event (extractToolCalls resp) rs ++
        EvRemote (followup_params (resp_ID resp) (zip_with output_item (extractToolCalls resp) rs)) r
        :: post.

(** File operations that answer with the context's error once it is
    cancelled, as the three methods of fileops.Handler do first thing. *)
Definition honours_cancellation (fo : FileOps) : Prop :=
  forall e,
    (forall path, fo_ReadFile fo (Some e) path = Err e) /\
    (forall pattern path ic, fo_GrepFiles fo (Some e) pattern path ic = Err e) /\
    (forall pattern, fo_GlobFiles fo (Some e) pattern = Err e).

(** The lines "n:line" of the lines a regular expression matches,
    numbered from 1. *)
Definition numbered_hits (re : string -> bool) (lines : list string) : list string :=
  map (fun il => pretty (fst il) +:+ ":" +:+ snd il)
    (List.filter (fun il => re (snd il)) (zip (seq 1 (length lines)) lines)).

(** What one matched path contributes to the GrepFiles output. *)
Definition grep_file (os : Fileops.Os) (re : string -> bool) (path : string) : list string :=
  match Fileops.os_Stat os path with
  | Err _ => []
  | Ok info =>
      if Fileops.fi_IsDir info then []
      else match Fileops.os_Open_scan os path with
           | Err _ => []
           | Ok (lines, _) =>
               match numbered_hits re lines with
               | [] => []
               | hits => (nl +:+ path +:+ ":") :: hits
               end
           end
  end.

(** What one matched path contributes to the GlobFiles output. *)
Definition glob_entry (os : Fileops.Os) (path : string) : list string :=
  match Fileops.os_Stat os path with
  | Err _ => []
  | Ok info => [if Fileops.fi_IsDir info then path +:+ "/" else path]
  end.

End Ghost.

(** ** Concrete environments, requests and states *)
Module Scenarios.
Import Mcp Client Ghost.

Definition json0 : Json := {|
  unmarshal_read := fun s => if String.eqb s "" then Err "unexpected end of JSON input" else Ok s;
  unmarshal_grep := fun s =>
    if String.eqb s "" then Err "unexpected end of JSON input" else Ok (s, ".", false);
  unmarshal_glob := fun s => if String.eqb s "" then Err "unexpected end of JSON input" else Ok s |}.

(** File operations that honour the context, with one missing file. *)
Definition fileOps0 : FileOps := {|
  fo_ReadFile := fun ctx path =>
    match ctx with
    | Some e => Err e
    | None =>
        if String.eqb path "/tmp/missing.txt"
        then Err "failed to stat file: stat /tmp/missing.txt: no such file or directory"
        else Ok ("package main // " +:+ path)
    end;
  fo_GrepFiles := fun ctx _ _ _ => match ctx with Some e => Err e | None => Ok "No matches found" end;
  fo_GlobFiles := fun ctx _ => match ctx with Some e => Err e | None => Ok "main.go" end |}.

Definition text_item (s : string) : OutputItem := {|
  oi_Type := "message"; oi_CallID := ""; oi_Name := ""; oi_Arguments := "";
  oi_Content := [{| ci_Type := "output_text"; ci_Text := s |}] |}.

Definition call_item (id name args : string) : OutputItem := {|
  oi_Type := "function_call"; oi_CallID := id; oi_Name := name; oi_Arguments := args;
  oi_Content := [] |}.

(** Response ids are numbered by the calls already made. *)
Definition next_id (tr : list Event) : string := "resp_" +:+ pretty (count_remote tr).

(** A service that answers with text. *)
Definition remote_text (ctx : option string) (tr : list Event) (_ : Params) : result Response :=
  match ctx with
  | Some e => Err e
  | None => Ok {| resp_ID := next_id tr; resp_Output := [text_item "4"] |}
  end.

Definition tool_response (tr : list Event) : Response :=
  {| resp_ID := next_id tr;
     resp_Output := [call_item ("call_" +:+ pretty (count_remote tr)) "read_file" "/src/main.go"] |}.

(** A service that always requests a tool call, whatever the context. *)
Definition remote_always_tools (_ : option string) (tr : list Event) (_ : Params)
  : result Response := Ok (tool_response tr).

(** The same service behind a client that fails once the context is done. *)
Definition remote_tools (ctx : option string) (tr : list Event) (_ : Params) : result Response :=
  match ctx with Some e => Err e | None => Ok (tool_response tr) end.

Definition never_cancelled : nat -> option string := fun _ => None.

(** Cancelled after the first two effects (the initial call and its write). *)
Definition cancelled_from_2 : nat -> option string :=
  fun t => if Nat.ltb t 2 then None else Some "context canceled".

Definition env_text : Env := {|
  env_ctx := never_cancelled; env_remote := remote_text; env_fileOps := fileOps0; env_json := json0 |}.

Definition env_tools : Env := {|
  env_ctx := never_cancelled; env_remote := remote_always_tools; env_fileOps := fileOps0;
  env_json := json0 |}.

Definition env_cancel : Env := {|
  env_ctx := cancelled_from_2; env_remote := remote_tools; env_fileOps := fileOps0;
  env_json := json0 |}.

(** File operations and a service that never look at the context. *)
Definition fileOps_blind : FileOps := {|
  fo_ReadFile := fun _ path => fo_ReadFile fileOps0 None path;
  fo_GrepFiles := fun _ pat path ic => fo_GrepFiles fileOps0 None pat path ic;
  fo_GlobFiles := fun _ pat => fo_GlobFiles fileOps0 None pat |}.

Definition env_blind_cancelled : Env := {|
  env_ctx := cancelled_from_2; env_remote := remote_always_tools; env_fileOps := fileOps_blind;
  env_json := json0 |}.

Definition env_blind : Env := {|
  env_ctx := never_cancelled; env_remote := remote_always_tools; env_fileOps := fileOps_blind;
  env_json := json0 |}.

Definition req_sum : CallToolRequest :=
  {| arguments := [("task", VString "2+2?"); ("continue", VBool false)] |}.

Definition req_blank_task : CallToolRequest := {| arguments := [("task", VString "   ")] |}.

Definition req_empty_task : CallToolRequest := {| arguments := [("task", VString "")] |}.

Definition req_no_task : CallToolRequest := {| arguments := [("context", VString "ci logs")] |}.

Definition req_files : CallToolRequest :=
  {| arguments := [("task", VString "list configs");
                   ("files", VArray [VString "/tmp/missing.txt"; VString "/src/main.go"])] |}.

Definition req_continue : CallToolRequest := {| arguments := [("task", VString "and then?")] |}.

Definition st0 : State := {| conv := ∅; trace := [] |}.

Definition st_ptr : State := {| conv := {[ "default" := "resp_41" ]}; trace := [] |}.

Definition st_empty_ptr : State := {| conv := {[ "default" := "" ]}; trace := [] |}.

(** A turn with two tool calls around a message: the first has an
    undecodable payload, the second names no declared tool. *)
Definition resp_two_calls : Response := {|
  resp_ID := "resp_7";
  resp_Output := [call_item "call_a" "read_file" ""; text_item "looking";
                  call_item "call_b" "list_dir" "{}"] |}.

Definition os0 : Fileops.Os := {|
  Fileops.os_UserHomeDir := Ok "/home/u";
  Fileops.os_Stat := fun _ => Ok {| Fileops.fi_Size := 10; Fileops.fi_IsDir := false |};
  Fileops.os_ReadFile := fun p => Ok ("contents of " +:+ p);
  Fileops.filepath_Glob := fun p => Ok [p];
  Fileops.os_Open_scan := fun _ => Ok (["line"], None);
  Fileops.filepath_Join := fun a b => a +:+ b;
  Fileops.regexp_Compile := fun s =>
    if String.eqb s "(" then Err "error parsing regexp: missing closing )"
    else Ok (fun line => String.eqb line s) |}.

(** A final answer in one message. *)
Definition resp_answer : Response := {| resp_ID := "resp_1"; resp_Output := [text_item "4"] |}.

(** An operating system on which every file is 6 MiB. *)
Definition os_big : Fileops.Os := {|
  Fileops.os_UserHomeDir := Ok "/home/u";
  Fileops.os_Stat := fun _ => Ok {| Fileops.fi_Size := 6 * 1024 * 1024; Fileops.fi_IsDir := false |};
  Fileops.os_ReadFile := fun p => Ok ("contents of " +:+ p);
  Fileops.filepath_Glob := fun p => Ok [p];
  Fileops.os_Open_scan := fun _ => Ok ([], None);
  Fileops.filepath_Join := fun a b => a +:+ b;
  Fileops.regexp_Compile := fun _ => Ok (fun _ => false) |}.

End Scenarios.

Import Mcp Client Ghost.

(** ** Structural lemmas *)

Lemma string_app_assoc (a b c : string) : (a +:+ b) +:+ c = a +:+ (b +:+ c).
Proof. induction a as [|x a IH]; [reflexivity | exact (f_equal (String x) IH)]. Qed.

Lemma replay_app (m : gmap string string) (l1 l2 : list Event) :
  replay m (l1 ++ l2) = replay (replay m l1) l2.
Proof.
  revert m; induction l1 as [|ev l1 IH]; intros m; [reflexivity|].
  destruct ev; simpl; apply IH.
Qed.

Lemma read_files_spec env files st :
  let '(parts, st') := read_files env files st in
  exists rs, length rs = length files /\
    trace st' = trace st ++ zip_with EvAttach files rs /\
    conv st' = conv st /\
    parts = zip_with attached_part files rs /\
    (forall i path r, files !! i = Some path -> rs !! i = Some r ->
       exists c, r = fo_ReadFile (env_fileOps env) c path).
Proof.
  revert st; induction files as [|f files IH]; intros st; simpl.
  - exists []; simpl; rewrite app_nil_r; repeat split; try done;
    intros i path r Hp; discriminate.
  - specialize (IH (record st (EvAttach f (fo_ReadFile (env_fileOps env) (ctx_now env st) f)))).
    destruct (read_files env files _) as [parts st'] eqn:E.
    destruct IH as (rs & Hlen & Htr & Hconv & Hparts & Hr).
    exists (fo_ReadFile (env_fileOps env) (ctx_now env st) f :: rs); simpl.
    rewrite Htr, Hconv, Hparts; simpl. rewrite <- app_assoc. repeat split; try done; [lia|].
    intros [|i] path r Hp Hq; simpl in *.
    + inversion Hp; inversion Hq; subst; eauto.
    + eauto.
Qed.

Lemma execute_tool_calls_spec env calls st :
  let '(outs, st') := execute_tool_calls env calls st in
  exists rs, length rs = length calls /\
    trace st' = trace st ++ zip_with exec_event calls rs /\
    conv st' = conv st /\
    outs = zip_with output_item calls rs /\
    (forall i tc r, calls !! i = Some tc -> rs !! i = Some r ->
       exists c, r = executeFunction env c (tc_Name tc) (tc_Arguments tc)).
Proof.
  revert st; induction calls as [|tc calls IH]; intros st; simpl.
  - exists []; simpl; rewrite app_nil_r; repeat split; try done;
    intros i tc r Hp; discriminate.
  - set (r0 := executeFunction env (ctx_now env st) (tc_Name tc) (tc_Arguments tc)).
    specialize (IH (record st (EvExec (tc_Name tc) (tc_Arguments tc) r0))).
    destruct (execute_tool_calls env calls _) as [outs st'] eqn:E.
    destruct IH as (rs & Hlen & Htr & Hconv & Houts & Hr).
    exists (r0 :: rs); simpl.
    rewrite Htr, Hconv, Houts; simpl. rewrite <- app_assoc. repeat split; try done; [lia|].
    intros [|i] tc' r Hp Hq; simpl in *.
    + inversion Hp; inversion Hq; subst; eauto.
    + eauto.
Qed.

Lemma Forall_exec_events calls rs : Forall is_other (zip_with exec_event calls rs).
Proof.
  revert rs; induction calls as [|tc calls IH]; intros [|r rs]; simpl; constructor; auto.
  exact I.
Qed.

Lemma Forall_attach_events files rs : Forall is_other (zip_with EvAttach files rs).
Proof.
  revert rs; induction files as [|f files IH]; intros [|r rs]; simpl; constructor; auto.
  exact I.
Qed.

Lemma replay_exec_events m calls rs : replay m (zip_with exec_event calls rs) = m.
Proof.
  revert rs; induction calls as [|tc calls IH]; intros [|r rs]; simpl; auto.
Qed.

Lemma replay_attach_events m files rs : replay m (zip_with EvAttach files rs) = m.
Proof.
  revert rs; induction files as [|f files IH]; intros [|r rs]; simpl; auto.
Qed.

Lemma writes_ok_others cid res pre l :
  Forall is_other pre -> writes_ok cid res l -> writes_ok cid res (pre ++ l).
Proof.
  induction 1 as [|ev pre Hev Hpre IH]; intros Hl; simpl; [exact Hl|].
  constructor; auto.
Qed.

Lemma save_resp_set cid r st : cid <> "" -> save_resp cid r st = setRespID st cid (resp_ID r).
Proof.
  intros H. unfold save_resp. apply String.eqb_neq in H. now rewrite H.
Qed.

Lemma effective_id_nonempty s : effective_id s <> "".
Proof.
  unfold effective_id. destruct (String.eqb s "") eqn:E; [discriminate|].
  now apply String.eqb_neq.
Qed.

Lemma tool_loop_writes_ok env cid n resp st :
  cid <> "" ->
  let '(res, st') := tool_loop env cid n resp st in
  exists new, trace st' = trace st ++ new /\ conv st' = replay (conv st) new /\
    writes_ok cid res new.
Proof.
  intros Hcid. revert resp st; induction n as [|n IH]; intros resp st; cbn [tool_loop].
  - exists []; rewrite app_nil_r; repeat split; constructor.
  - destruct (extractToolCalls resp) as [|tc tcs] eqn:Ec.
    + destruct (String.eqb (extractTextContent resp) "");
        exists []; rewrite app_nil_r; repeat split; constructor.
    + pose proof (execute_tool_calls_spec env (tc :: tcs) st) as Hx.
      destruct (execute_tool_calls env (tc :: tcs) st) as [outs st1] eqn:E1.
      destruct Hx as (rs & _ & Htr1 & Hconv1 & _ & _).
      unfold call_remote.
      destruct (env_remote env (ctx_now env st1) (trace st1)
                  (followup_params (resp_ID resp) outs)) as [resp'|e] eqn:Er.
      * rewrite save_resp_set by exact Hcid.
        set (st2 := setRespID (record st1 (EvRemote (followup_params (resp_ID resp) outs) (Ok resp'))) cid (resp_ID resp')).
        specialize (IH resp' st2).
        destruct (tool_loop env cid n resp' st2) as [res st'] eqn:E2.
        destruct IH as (new & Htr & Hconv & Hwo).
        exists (zip_with exec_event (tc :: tcs) rs ++
                EvRemote (followup_params (resp_ID resp) outs) (Ok resp') ::
                EvSet cid (resp_ID resp') :: new).
        rewrite Htr, Hconv. subst st2. unfold setRespID, record; cbn [trace conv]. rewrite Htr1, Hconv1.
        repeat split.
        -- rewrite <- !app_assoc. reflexivity.
        -- rewrite replay_app, replay_exec_events. reflexivity.
        -- apply writes_ok_others; [apply Forall_exec_events|]. apply wo_ok. exact Hwo.
      * exists (zip_with exec_event (tc :: tcs) rs ++
                [EvRemote (followup_params (resp_ID resp) outs) (Err e)]).
        unfold record; cbn [trace conv]. rewrite Htr1, Hconv1. repeat split.
        -- rewrite <- app_assoc. reflexivity.
        -- rewrite replay_app, replay_exec_events. reflexivity.
        -- apply writes_ok_others; [apply Forall_exec_events|]. now apply wo_err.
Qed.

Lemma read_attached_spec env files st :
  let '(fc, st') := read_attached env files st in
  exists rs, length rs = length files /\
    trace st' = trace st ++ zip_with EvAttach files rs /\
    conv st' = conv st /\
    fc = attached_block files rs /\
    (forall i path r, files !! i = Some path -> rs !! i = Some r ->
       exists c, r = fo_ReadFile (env_fileOps env) c path).
Proof.
  destruct files as [|f files].
  - exists []; simpl; rewrite app_nil_r; repeat split; try done;
      intros i path r Hp; discriminate.
  - unfold read_attached.
    pose proof (read_files_spec env (f :: files) st) as Hr.
    destruct (read_files env (f :: files) st) as [parts st'].
    destruct Hr as (rs & Hlen & Htr & Hconv & Hparts & Hrs).
    exists rs; repeat split; try done. now rewrite Hparts.
Qed.

Lemma Handle_task_error env req st e :
  RequireString req "task" = Err e -> Handle env req st = (NewToolResultError e, st).
Proof. intros H. unfold Handle. now rewrite H. Qed.

Lemma Handle_first_call env req st t :
  RequireString req "task" = Ok t ->
  let files := GetStringSlice req "files" [] in
  let cont := GetBool req "continue" true in
  let cid := effective_id (GetString req "conversation_id" "") in
  let '(res, st') := Handle env req st in
  exists rs r rest,
    length rs = length files /\
    (forall i path r, files !! i = Some path -> rs !! i = Some r ->
       exists c, r = fo_ReadFile (env_fileOps env) c path) /\
    trace st' = trace st ++ zip_with EvAttach files rs ++
      (if cont then [] else [EvClear cid]) ++
      EvRemote (initial_params
                  (build_prompt (GetString req "context" "") (attached_block files rs) t)
                  (if cont then getRespID st cid else "")) r :: rest.
Proof.
  intros Ht files cont cid. unfold Handle. rewrite Ht. cbv zeta.
  fold files cont cid.
  pose proof (read_attached_spec env files st) as Hra.
  destruct (read_attached env files st) as [fc st1].
  destruct Hra as (rs & Hlen & Htr1 & Hconv1 & Hfc & Hrs). subst fc.
  assert (Hget : getRespID st1 cid = getRespID st cid)
    by (unfold getRespID; now rewrite Hconv1).
  destruct cont; cbv beta iota; unfold call_remote.
  - rewrite Hget.
    destruct (env_remote env _ _ _) as [resp|e].
    + rewrite save_resp_set by apply effective_id_nonempty.
      match goal with |- context [tool_loop env cid maxIterations resp ?s] =>
        pose proof (tool_loop_writes_ok env cid maxIterations resp s (effective_id_nonempty _)) as Hl;
        destruct (tool_loop env cid maxIterations resp s) as [res st'] end.
      destruct Hl as (new & Htr & _ & _).
      exists rs, (Ok resp), (EvSet cid (resp_ID resp) :: new); repeat split; try done.
      rewrite Htr. unfold setRespID, record; cbn [trace]. rewrite Htr1.
      rewrite <- !app_assoc. reflexivity.
    + exists rs, (Err e), []; repeat split; try done.
      unfold record; cbn [trace]. rewrite Htr1. rewrite <- !app_assoc. reflexivity.
  - destruct (env_remote env _ _ _) as [resp|e].
    + rewrite save_resp_set by apply effective_id_nonempty.
      match goal with |- context [tool_loop env cid maxIterations resp ?s] =>
        pose proof (tool_loop_writes_ok env cid maxIterations resp s (effective_id_nonempty _)) as Hl;
        destruct (tool_loop env cid maxIterations resp s) as [res st'] end.
      destruct Hl as (new & Htr & _ & _).
      exists rs, (Ok resp), (EvSet cid (resp_ID resp) :: new); repeat split; try done.
      rewrite Htr. unfold setRespID, record, clearRespID; cbn [trace]. rewrite Htr1.
      rewrite <- !app_assoc. reflexivity.
    + exists rs, (Err e), []; repeat split; try done.
      unfold record, clearRespID; cbn [trace]. rewrite Htr1. rewrite <- !app_assoc. reflexivity.
Qed.

Lemma Handle_writes_ok env req st :
  let cid := effective_id (GetString req "conversation_id" "") in
  let '(res, st') := Handle env req st in
  exists new, trace st' = trace st ++ new /\ conv st' = replay (conv st) new /\
    writes_ok cid res new.
Proof.
  intros cid. destruct (RequireString req "task") as [t|e] eqn:Ht.
  2:{ rewrite (Handle_task_error env req st e Ht). exists [].
      rewrite app_nil_r; repeat split; constructor. }
  unfold Handle. rewrite Ht. cbv zeta. fold cid.
  pose proof (read_attached_spec env (GetStringSlice req "files" []) st) as Hra.
  destruct (read_attached env _ st) as [fc st1].
  destruct Hra as (rs & _ & Htr1 & Hconv1 & _ & _).
  set (pre := zip_with EvAttach (GetStringSlice req "files" []) rs).
  assert (Hpre : Forall is_other pre) by apply Forall_attach_events.
  assert (Hrp : forall m, replay m pre = m) by (intros; apply replay_attach_events).
  destruct (GetBool req "continue" true); cbv beta iota; unfold call_remote.
  - destruct (env_remote env _ _ _) as [resp|e].
    + rewrite save_resp_set by apply effective_id_nonempty.
      match goal with |- context [tool_loop env cid maxIterations resp ?s] =>
        pose proof (tool_loop_writes_ok env cid maxIterations resp s (effective_id_nonempty _)) as Hl;
        destruct (tool_loop env cid maxIterations resp s) as [res st'] end.
      destruct Hl as (new & Htr & Hconv & Hwo).
      match type of Htr with context [EvRemote ?p (Ok resp)] =>
        exists (pre ++ EvRemote p (Ok resp) :: EvSet cid (resp_ID resp) :: new) end.
      rewrite Htr, Hconv. unfold setRespID, record; cbn [trace conv]. rewrite Htr1, Hconv1.
      repeat split.
      * rewrite <- !app_assoc. reflexivity.
      * rewrite replay_app, Hrp. reflexivity.
      * apply writes_ok_others; [exact Hpre|]. now apply wo_ok.
    + match goal with |- context [EvRemote ?p (Err e)] =>
        exists (pre ++ [EvRemote p (Err e)]) end.
      unfold record; cbn [trace conv]. rewrite Htr1, Hconv1. repeat split.
      * rewrite <- !app_assoc. reflexivity.
      * rewrite replay_app, Hrp. reflexivity.
      * apply writes_ok_others; [exact Hpre|]. now apply wo_err.
  - destruct (env_remote env _ _ _) as [resp|e].
    + rewrite save_resp_set by apply effective_id_nonempty.
      match goal with |- context [tool_loop env cid maxIterations resp ?s] =>
        pose proof (tool_loop_writes_ok env cid maxIterations resp s (effective_id_nonempty _)) as Hl;
        destruct (tool_loop env cid maxIterations resp s) as [res st'] end.
      destruct Hl as (new & Htr & Hconv & Hwo).
      match type of Htr with context [EvRemote ?p (Ok resp)] =>
        exists (pre ++ EvClear cid :: EvRemote p (Ok resp) :: EvSet cid (resp_ID resp) :: new) end.
      rewrite Htr, Hconv. unfold setRespID, record, clearRespID; cbn [trace conv].
      rewrite Htr1, Hconv1. repeat split.
      * rewrite <- !app_assoc. reflexivity.
      * rewrite replay_app, Hrp. reflexivity.
      * apply writes_ok_others; [exact Hpre|]. apply wo_other; [exact I|]. now apply wo_ok.
    + match goal with |- context [EvRemote ?p (Err e)] =>
        exists (pre ++ [EvClear cid; EvRemote p (Err e)]) end.
      unfold record, clearRespID; cbn [trace conv]. rewrite Htr1, Hconv1. repeat split.
      * rewrite <- !app_assoc. reflexivity.
      * rewrite replay_app, Hrp. reflexivity.
      * apply writes_ok_others; [exact Hpre|]. apply wo_other; [exact I|]. now apply wo_err.
Qed.

Lemma writes_ok_set cid res l pre k v post :
  writes_ok cid res l -> l = pre ++ EvSet k v :: post ->
  k = cid /\ exists pre' p r, pre = pre' ++ [EvRemote p (Ok r)] /\ v = resp_ID r.
Proof.
  intros Hw. revert pre. induction Hw as [|ev l Hev Hw IH|p r l Hw IH|p e Hres]; intros pre Hl.
  - destruct pre; discriminate.
  - destruct pre as [|x pre]; simpl in Hl; inversion Hl; subst; [contradiction|].
    destruct (IH pre eq_refl) as (Hk & pre' & p & r & -> & Hv).
    split; [exact Hk|]. exists (x :: pre'), p, r; split; [reflexivity | exact Hv].
  - destruct pre as [|x [|y pre]]; simpl in Hl; inversion Hl; subst.
    + split; [reflexivity|]. exists [], p, r. split; reflexivity.
    + destruct (IH pre eq_refl) as (Hk & pre' & p' & r' & -> & Hv).
      split; [exact Hk|]. exists (EvRemote p (Ok r) :: EvSet cid (resp_ID r) :: pre'), p', r'.
      split; [reflexivity | exact Hv].
  - destruct pre as [|x [|y pre]]; simpl in Hl; inversion Hl.
Qed.

Lemma writes_ok_remote_ok cid res l pre p r post :
  writes_ok cid res l -> l = pre ++ EvRemote p (Ok r) :: post ->
  exists post', post = EvSet cid (resp_ID r) :: post'.
Proof.
  intros Hw. revert pre. induction Hw as [|ev l Hev Hw IH|p0 r0 l Hw IH|p0 e Hres]; intros pre Hl.
  - destruct pre; discriminate.
  - destruct pre as [|x pre]; simpl in Hl; inversion Hl; subst; [contradiction|].
    exact (IH pre eq_refl).
  - destruct pre as [|x [|y pre]]; simpl in Hl; inversion Hl; subst.
    + eauto.
    + exact (IH pre eq_refl).
  - destruct pre as [|x [|y pre]]; simpl in Hl; inversion Hl.
Qed.

Lemma writes_ok_remote_err cid res l pre p e post :
  writes_ok cid res l -> l = pre ++ EvRemote p (Err e) :: post ->
  post = [] /\ res = NewToolResultError ("OpenAI API error: " +:+ e).
Proof.
  intros Hw. revert pre. induction Hw as [|ev l Hev Hw IH|p0 r0 l Hw IH|p0 e0 Hres]; intros pre Hl.
  - destruct pre; discriminate.
  - destruct pre as [|x pre]; simpl in Hl; inversion Hl; subst; [contradiction|].
    exact (IH pre eq_refl).
  - destruct pre as [|x [|y pre]]; simpl in Hl; inversion Hl; subst.
    exact (IH pre eq_refl).
  - destruct pre as [|x [|y pre]]; simpl in Hl; inversion Hl; subst; auto.
Qed.

Lemma tool_loop_extends env cid n resp st :
  let '(res, st') := tool_loop env cid n resp st in exists new, trace st' = trace st ++ new.
Proof.
  revert resp st; induction n as [|n IH]; intros resp st; cbn [tool_loop].
  - exists []; now rewrite app_nil_r.
  - destruct (extractToolCalls resp) as [|tc tcs].
    + destruct (String.eqb (extractTextContent resp) ""); exists []; now rewrite app_nil_r.
    + pose proof (execute_tool_calls_spec env (tc :: tcs) st) as Hx.
      destruct (execute_tool_calls env (tc :: tcs) st) as [outs st1].
      destruct Hx as (rs & _ & Htr1 & _).
      unfold call_remote. destruct (env_remote env _ _ _) as [resp'|e].
      * match goal with |- context [tool_loop env cid n resp' ?s] =>
          specialize (IH resp' s); destruct (tool_loop env cid n resp' s) as [res st'];
          destruct IH as (new & Htr); set (s0 := s) in Htr end.
        unfold save_resp, setRespID, record in s0.
        destruct (String.eqb cid ""); subst s0; cbn [trace] in Htr; rewrite Htr, Htr1;
          eexists; rewrite <- !app_assoc; reflexivity.
      * unfold record; cbn [trace]; rewrite Htr1. eexists; rewrite <- !app_assoc; reflexivity.
Qed.

Lemma executeFunction_fails env c tc reason :
  call_fails env tc reason -> executeFunction env c (tc_Name tc) (tc_Arguments tc) = Err reason.
Proof.
  intros Hf; destruct Hf as [tc e Hn He|tc e Hn He|tc e Hn He|tc Hn];
    unfold executeFunction.
  - rewrite Hn, He. reflexivity.
  - rewrite Hn, He. reflexivity.
  - rewrite Hn, He. reflexivity.
  - assert (Hr : String.eqb (tc_Name tc) "read_file" = false)
      by (apply String.eqb_neq; intros Heq; apply Hn; rewrite Heq; unfold buildTools; set_solver).
    assert (Hg : String.eqb (tc_Name tc) "grep_files" = false)
      by (apply String.eqb_neq; intros Heq; apply Hn; rewrite Heq; unfold buildTools; set_solver).
    assert (Hb : String.eqb (tc_Name tc) "glob_files" = false)
      by (apply String.eqb_neq; intros Heq; apply Hn; rewrite Heq; unfold buildTools; set_solver).
    now rewrite Hr, Hg, Hb.
Qed.

(** ** Claims about the orchestrator *)

(** C1: during a Handle run, the conversation map is written only with the
    response id of a remote call that succeeded: every write
    ([setRespID]) is under the effective conversation id and immediately
    follows the successful call whose id it stores; right after every
    successful call (initial or follow-up) the stored pointer equals that
    call's response id; a failed remote call is the last effect of the
    run, leaves the map as it was before the call, and is reported as an
    "OpenAI API error". *)
Theorem Handle_pointer_only_from_successful_calls env req st :
  let cid := effective_id (GetString req "conversation_id" "") in
  let '(res, st') := Handle env req st in
  exists new, trace st' = trace st ++ new /\ conv st' = replay (conv st) new /\
    (forall pre k v post, new = pre ++ EvSet k v :: post ->
       k = cid /\ exists pre' p r, pre = pre' ++ [EvRemote p (Ok r)] /\ v = resp_ID r) /\
    (forall pre p r post, new = pre ++ EvRemote p (Ok r) :: post ->
       (exists post', post = EvSet cid (resp_ID r) :: post') /\
       replay (conv st) (pre ++ [EvRemote p (Ok r); EvSet cid (resp_ID r)]) !! cid
         = Some (resp_ID r)) /\
    (forall pre p e post, new = pre ++ EvRemote p (Err e) :: post ->
       post = [] /\ conv st' = replay (conv st) pre /\
       res = NewToolResultError ("OpenAI API error: " +:+ e)).
Proof.
  intros cid. pose proof (Handle_writes_ok env req st) as H. cbv zeta in H. fold cid in H.
  destruct (Handle env req st) as [res st'].
  destruct H as (new & Htr & Hconv & Hwo).
  exists new. split; [exact Htr|]. split; [exact Hconv|]. split; [|split].
  - intros pre k v post Hl. exact (writes_ok_set cid res new pre k v post Hwo Hl).
  - intros pre p r post Hl. split.
    + exact (writes_ok_remote_ok cid res new pre p r post Hwo Hl).
    + rewrite replay_app. simpl. apply lookup_insert_eq.
  - intros pre p e post Hl.
    destruct (writes_ok_remote_err cid res new pre p e post Hwo Hl) as [Hpost Hres].
    split; [exact Hpost|]. split; [|exact Hres].
    rewrite Hconv, Hl, Hpost, replay_app. reflexivity.
Qed.

(** C3: in every iteration of the tool-execution loop whose response
    carries tool calls, the follow-up turn is submitted with one
    function-call output per call, in the order of the calls, each keyed
    by the call's own id and holding its result or its inline error; it
    continues from the response being answered.  All calls are executed
    before it is submitted. *)
Theorem followup_outputs_match_calls env cid n resp st :
  extractToolCalls resp <> [] ->
  let calls := extractToolCalls resp in
  let '(res, st') := tool_loop env cid (S n) resp st in
  exists rs r post,
    length rs = length calls /\
    length (zip_with output_item calls rs) = length calls /\
    trace st' = trace st ++ zip_with exec_event calls rs ++
      EvRemote (followup_params (resp_ID resp) (zip_with output_item calls rs)) r :: post.
Proof.
  intros Hne calls. cbn [tool_loop]. fold calls. fold calls in Hne.
  destruct calls as [|tc tcs] eqn:Ec; [contradiction|].
  pose proof (execute_tool_calls_spec env (tc :: tcs) st) as Hx.
  destruct (execute_tool_calls env (tc :: tcs) st) as [outs st1].
  destruct Hx as (rs & Hlen & Htr1 & _ & Houts & _). subst outs.
  assert (Hzl : length (zip_with output_item (tc :: tcs) rs) = length (tc :: tcs))
    by (rewrite length_zip_with; lia).
  unfold call_remote. destruct (env_remote env _ _ _) as [resp'|e] eqn:Er.
  - match goal with |- context [tool_loop env cid n resp' ?s] =>
      pose proof (tool_loop_extends env cid n resp' s) as Hl;
      destruct (tool_loop env cid n resp' s) as [res st'];
      destruct Hl as (new & Htr); set (s0 := s) in Htr end.
    unfold save_resp, setRespID, record in s0.
    destruct (String.eqb cid "").
    + subst s0; cbn [trace] in Htr.
      exists rs, (Ok resp'), new; repeat split; try done.
      rewrite Htr, Htr1, <- !app_assoc. reflexivity.
    + subst s0; cbn [trace] in Htr.
      exists rs, (Ok resp'), (EvSet cid (resp_ID resp') :: new); repeat split; try done.
      rewrite Htr, Htr1, <- !app_assoc. reflexivity.
  - exists rs, (Err e), []; repeat split; try done.
    unfold record; cbn [trace]. rewrite Htr1, <- !app_assoc. reflexivity.
Qed.

(** C4: a tool call whose argument payload does not decode, or whose name
    is not one of the three tools, gets "Error: <reason>" as its output;
    every call of the turn is still executed and answered. *)
Theorem failed_call_gets_inline_error env calls st i tc reason :
  calls !! i = Some tc -> call_fails env tc reason ->
  let '(outs, st') := execute_tool_calls env calls st in
  outs !! i = Some (FunctionCallOutput (tc_ID tc) ("Error: " +:+ reason)) /\
  length outs = length calls /\
  exists rs, length rs = length calls /\ trace st' = trace st ++ zip_with exec_event calls rs.
Proof.
  intros Hi Hf. pose proof (execute_tool_calls_spec env calls st) as Hx.
  destruct (execute_tool_calls env calls st) as [outs st'].
  destruct Hx as (rs & Hlen & Htr & _ & Houts & Hrs). subst outs.
  assert (Hlt : i < length rs) by (rewrite Hlen; eapply lookup_lt_Some; exact Hi).
  destruct (lookup_lt_is_Some_2 rs i Hlt) as [r Hr].
  destruct (Hrs i tc r Hi Hr) as [c ->].
  repeat split.
  - rewrite lookup_zip_with, Hi, Hr. simpl.
    unfold output_item. rewrite (executeFunction_fails env c tc reason Hf). reflexivity.
  - rewrite length_zip_with. lia.
  - exists rs; split; assumption.
Qed.

Lemma count_remote_app l1 l2 : count_remote (l1 ++ l2) = count_remote l1 + count_remote l2.
Proof. unfold count_remote. rewrite List.filter_app, length_app. reflexivity. Qed.

Lemma count_remote_cons_remote p r l : count_remote (EvRemote p r :: l) = S (count_remote l).
Proof. reflexivity. Qed.

Lemma count_remote_cons_clear k l : count_remote (EvClear k :: l) = count_remote l.
Proof. reflexivity. Qed.

Lemma count_remote_exec calls rs : count_remote (zip_with exec_event calls rs) = 0.
Proof. unfold count_remote. revert rs; induction calls as [|tc calls IH]; intros [|r rs]; simpl; auto. Qed.

Lemma count_remote_attach files rs : count_remote (zip_with EvAttach files rs) = 0.
Proof. unfold count_remote. revert rs; induction files as [|f files IH]; intros [|r rs]; simpl; auto. Qed.

Lemma save_resp_trace cid r st :
  conv (save_resp cid r st) = (if String.eqb cid "" then conv st else <[cid := resp_ID r]> (conv st)) /\
  exists l, trace (save_resp cid r st) = trace st ++ l /\ count_remote l = 0.
Proof.
  unfold save_resp. destruct (String.eqb cid "").
  - split; [reflexivity|]. exists []. now rewrite app_nil_r.
  - split; [reflexivity|]. exists [EvSet cid (resp_ID r)]. split; reflexivity.
Qed.

Lemma tool_loop_budget env cid n resp st :
  (forall c tr p, exists r, env_remote env c tr p = Ok r /\ extractToolCalls r <> []) ->
  extractToolCalls resp <> [] ->
  let '(res, st') := tool_loop env cid n resp st in
  res = NewToolResultError "Max function call iterations reached" /\
  exists new, trace st' = trace st ++ new /\ count_remote new = n.
Proof.
  intros Hsvc. revert resp st; induction n as [|n IH]; intros resp st Hne; cbn [tool_loop].
  - split; [reflexivity|]. exists []. now rewrite app_nil_r.
  - destruct (extractToolCalls resp) as [|tc tcs]; [contradiction|].
    pose proof (execute_tool_calls_spec env (tc :: tcs) st) as Hx.
    destruct (execute_tool_calls env (tc :: tcs) st) as [outs st1].
    destruct Hx as (rs & _ & Htr1 & _).
    unfold call_remote.
    match goal with |- context [env_remote env ?c ?tr ?p] =>
      destruct (Hsvc c tr p) as (r & Er & Hne'); rewrite Er end.
    match goal with |- context [tool_loop env cid n r ?s] =>
      pose proof (IH r s Hne') as Hl; destruct (tool_loop env cid n r s) as [res st'];
      destruct (save_resp_trace cid r (record st1 (EvRemote (followup_params (resp_ID resp) outs) (Ok r))))
        as (_ & l & Hl1 & Hc1) end.
    destruct Hl as (Hres & new & Htr & Hc). split; [exact Hres|].
    exists (zip_with exec_event (tc :: tcs) rs ++
            EvRemote (followup_params (resp_ID resp) outs) (Ok r) :: l ++ new).
    rewrite Htr, Hl1. unfold record; cbn [trace]. rewrite Htr1. split.
    + rewrite <- !app_assoc. reflexivity.
    + rewrite count_remote_app, count_remote_exec, count_remote_cons_remote, count_remote_app, Hc1, Hc.
      reflexivity.
Qed.

(** C2, as amended: against a service whose every call succeeds with at
    least one tool call, Handle ends with the budget-exhausted error after
    exactly [maxIterations + 1] remote calls: the initial one and one
    follow-up for each of the [maxIterations] rounds of tool execution. *)
Theorem Handle_budget_after_initial_plus_max_followups env req st t :
  RequireString req "task" = Ok t ->
  (forall c tr p, exists r, env_remote env c tr p = Ok r /\ extractToolCalls r <> []) ->
  let '(res, st') := Handle env req st in
  res = NewToolResultError "Max function call iterations reached" /\
  exists new, trace st' = trace st ++ new /\ count_remote new = S maxIterations.
Proof.
  intros Ht Hsvc. unfold Handle. rewrite Ht. cbv zeta.
  pose proof (read_attached_spec env (GetStringSlice req "files" []) st) as Hra.
  destruct (read_attached env _ st) as [fc st1].
  destruct Hra as (rs & _ & Htr1 & _).
  set (cid := effective_id (GetString req "conversation_id" "")).
  destruct (GetBool req "continue" true); cbv beta iota; unfold call_remote;
    (match goal with |- context [env_remote env ?c ?tr ?p] =>
      destruct (Hsvc c tr p) as (r & Er & Hne); rewrite Er end);
    (match goal with |- context [tool_loop env cid maxIterations ?r ?s] =>
      pose proof (tool_loop_budget env cid maxIterations r s Hsvc Hne) as Hl;
      destruct (tool_loop env cid maxIterations r s) as [res st'] end);
    destruct Hl as (Hres & new & Htr & Hc); split; try exact Hres;
    rewrite save_resp_set in Htr by apply effective_id_nonempty;
    unfold setRespID, record, clearRespID in Htr; cbn [trace] in Htr;
    rewrite Htr1 in Htr.
  - eexists; split; [rewrite Htr, <- !app_assoc; reflexivity|].
    rewrite !count_remote_app, count_remote_attach, Hc. reflexivity.
  - eexists; split; [rewrite Htr, <- !app_assoc; reflexivity|].
    rewrite !count_remote_app, count_remote_attach, Hc. reflexivity.
Qed.

Lemma build_prompt_contains context fb t :
  String.eqb fb "" = false -> exists a b, build_prompt context fb t = a +:+ fb +:+ b.
Proof.
  intros Hfb. unfold build_prompt. rewrite Hfb.
  destruct (String.eqb context ""); cbn [negb andb].
  - exists "", (nl +:+ "Task:" +:+ nl +:+ t). reflexivity.
  - exists ("Context:" +:+ nl +:+ context), (nl +:+ "Task:" +:+ nl +:+ t).
    rewrite !string_app_assoc. reflexivity.
Qed.

Lemma files_block_nonempty parts : String.eqb (files_block parts) "" = false.
Proof. reflexivity. Qed.

(** C5: reading the attached files never stops the request: each file is
    read once, in order; the prompt of the initial remote call contains
    the "Attached Files" block in which a file whose read failed carries
    "Error: <reason>" and a file read successfully carries its full
    content; the initial remote call is made in both cases. *)
Theorem attached_read_failures_are_inlined env req st t :
  RequireString req "task" = Ok t ->
  GetStringSlice req "files" [] <> [] ->
  let files := GetStringSlice req "files" [] in
  let cid := effective_id (GetString req "conversation_id" "") in
  let '(res, st') := Handle env req st in
  exists rs prompt prev r rest,
    length rs = length files /\
    (forall i path r, files !! i = Some path -> rs !! i = Some r ->
       exists c, r = fo_ReadFile (env_fileOps env) c path) /\
    trace st' = trace st ++ zip_with EvAttach files rs ++
      (if GetBool req "continue" true then [] else [EvClear cid]) ++
      EvRemote (initial_params prompt prev) r :: rest /\
    exists a b, prompt = a +:+ files_block (zip_with attached_part files rs) +:+ b.
Proof.
  intros Ht Hne files cid.
  pose proof (Handle_first_call env req st t Ht) as H. cbv zeta in H. fold files cid in H.
  destruct (Handle env req st) as [res st'].
  destruct H as (rs & r & rest & Hlen & Hrs & Htr).
  do 5 eexists. split; [exact Hlen|]. split; [exact Hrs|]. split; [exact Htr|].
  assert (Hab : attached_block files rs = files_block (zip_with attached_part files rs)).
  { unfold attached_block. fold files in Hne. destruct files; [contradiction|reflexivity]. }
  rewrite Hab. apply build_prompt_contains, files_block_nonempty.
Qed.

(** C6: with continue=false, the stored pointer of the effective
    conversation id is deleted before the initial remote call, which is
    the first remote call of the run and carries no previous-response id. *)
Theorem fresh_request_clears_pointer_first env req st t :
  RequireString req "task" = Ok t ->
  GetBool req "continue" true = false ->
  let cid := effective_id (GetString req "conversation_id" "") in
  let '(res, st') := Handle env req st in
  exists pre p r post,
    trace st' = trace st ++ pre ++ EvRemote p r :: post /\
    count_remote pre = 0 /\
    last pre = Some (EvClear cid) /\
    replay (conv st) pre !! cid = None /\
    p_PreviousResponseID p = None.
Proof.
  intros Ht Hc cid.
  pose proof (Handle_first_call env req st t Ht) as H. cbv zeta in H. fold cid in H.
  rewrite Hc in H.
  destruct (Handle env req st) as [res st'].
  destruct H as (rs & r & rest & _ & _ & Htr).
  exists (zip_with EvAttach (GetStringSlice req "files" []) rs ++ [EvClear cid]).
  do 3 eexists. split; [rewrite Htr, <- app_assoc; reflexivity|].
  split; [rewrite count_remote_app, count_remote_attach; reflexivity|].
  split; [apply last_snoc|].
  split; [rewrite replay_app, replay_attach_events; apply lookup_delete_eq|].
  reflexivity.
Qed.

(** C7, as amended: with continue=true nothing is cleared and the initial
    remote call (the first of the run) continues from the stored pointer
    of the effective conversation id when that pointer is a non-empty
    string; when no pointer is stored, or the stored one is empty, it is
    made without a previous-response id. *)
Theorem continued_request_uses_stored_pointer env req st t :
  RequireString req "task" = Ok t ->
  GetBool req "continue" true = true ->
  let cid := effective_id (GetString req "conversation_id" "") in
  let '(res, st') := Handle env req st in
  exists pre p r post,
    trace st' = trace st ++ pre ++ EvRemote p r :: post /\
    count_remote pre = 0 /\
    replay (conv st) pre = conv st /\
    (forall P, conv st !! cid = Some P -> P <> "" -> p_PreviousResponseID p = Some P) /\
    (conv st !! cid = None -> p_PreviousResponseID p = None) /\
    (conv st !! cid = Some "" -> p_PreviousResponseID p = None).
Proof.
  intros Ht Hc cid.
  pose proof (Handle_first_call env req st t Ht) as H. cbv zeta in H. fold cid in H.
  rewrite Hc in H.
  destruct (Handle env req st) as [res st'].
  destruct H as (rs & r & rest & _ & _ & Htr).
  exists (zip_with EvAttach (GetStringSlice req "files" []) rs).
  do 3 eexists. split; [rewrite Htr; reflexivity|].
  split; [apply count_remote_attach|].
  split; [apply replay_attach_events|].
  unfold initial_params, getRespID; cbn [p_PreviousResponseID].
  split; [|split].
  - intros P HP Hne. rewrite HP. apply String.eqb_neq in Hne. now rewrite Hne.
  - intros HP. now rewrite HP.
  - intros HP. now rewrite HP.
Qed.

(** C8, as amended: Handle rejects a request, without any effect, exactly
    when mcp-go's RequireString rejects the "task" argument (absent, or
    not a string); any task string, empty or blank included, is accepted
    and reaches the remote service. *)
Theorem Handle_rejects_only_missing_task env req st :
  (forall s, lookup_arg "task" (arguments req) = Some (VString s) ->
     RequireString req "task" = Ok s) /\
  match RequireString req "task" with
  | Err e => Handle env req st = (NewToolResultError e, st)
  | Ok t =>
      let '(res, st') := Handle env req st in
      exists pre p r post,
        trace st' = trace st ++ pre ++ EvRemote p r :: post /\ count_remote pre = 0
  end.
Proof.
  split.
  - intros s Hs. unfold RequireString. now rewrite Hs.
  - destruct (RequireString req "task") as [t|e] eqn:Ht.
    + pose proof (Handle_first_call env req st t Ht) as H. cbv zeta in H.
      destruct (Handle env req st) as [res st'].
      destruct H as (rs & r & rest & _ & _ & Htr).
      exists (zip_with EvAttach (GetStringSlice req "files" []) rs ++
              (if GetBool req "continue" true then []
               else [EvClear (effective_id (GetString req "conversation_id" ""))])).
      do 3 eexists. split; [rewrite Htr, <- app_assoc; reflexivity|].
      rewrite count_remote_app, count_remote_attach.
      destruct (GetBool req "continue" true); reflexivity.
    + now apply Handle_task_error.
Qed.

Section SameObservations.
Variables env1 env2 : Env.
Hypothesis Hsame : same_observations env1 env2.

Lemma executeFunction_same t name args :
  executeFunction env1 (env_ctx env1 t) name args = executeFunction env2 (env_ctx env2 t) name args.
Proof.
  destruct Hsame as (_ & Hrd & Hgr & Hgl & Hj).
  unfold executeFunction. rewrite Hj.
  destruct (String.eqb name "read_file");
    [destruct (unmarshal_read _ _); auto|].
  destruct (String.eqb name "grep_files");
    [destruct (unmarshal_grep _ _) as [[[? ?] ?]|]; auto|].
  destruct (String.eqb name "glob_files");
    [destruct (unmarshal_glob _ _); auto|].
  reflexivity.
Qed.

Lemma execute_tool_calls_same calls st :
  execute_tool_calls env1 calls st = execute_tool_calls env2 calls st.
Proof.
  revert st. induction calls as [|tc calls IH]; intros st; [reflexivity|].
  cbn [execute_tool_calls]. unfold ctx_now.
  rewrite executeFunction_same, IH. reflexivity.
Qed.

Lemma read_files_same files st :
  read_files env1 files st = read_files env2 files st.
Proof.
  destruct Hsame as (_ & Hrd & _).
  revert st. induction files as [|f files IH]; intros st; [reflexivity|].
  cbn [read_files]. unfold ctx_now.
  rewrite Hrd, IH. reflexivity.
Qed.

Lemma read_attached_same files st :
  read_attached env1 files st = read_attached env2 files st.
Proof.
  unfold read_attached. destruct files; [reflexivity|]. now rewrite read_files_same.
Qed.

Lemma call_remote_same p st : call_remote env1 p st = call_remote env2 p st.
Proof.
  destruct Hsame as (Hr & _). unfold call_remote, ctx_now. now rewrite Hr.
Qed.

Lemma tool_loop_same cid n resp st :
  tool_loop env1 cid n resp st = tool_loop env2 cid n resp st.
Proof.
  revert resp st. induction n as [|n IH]; intros resp st; [reflexivity|].
  cbn [tool_loop]. destruct (extractToolCalls resp); [reflexivity|].
  rewrite execute_tool_calls_same.
  destruct (execute_tool_calls env2 _ st) as [outs st1].
  rewrite call_remote_same.
  destruct (call_remote env2 _ st1) as [[r|e] st2]; [apply IH|reflexivity].
Qed.

End SameObservations.

Lemma expand_home_username os c rest :
  c <> "/"%char ->
  Fileops.expand_home os (String "~" (String c rest)) = (Err Fileops.unsupported_path, []).
Proof.
  intros Hc. apply Ascii.eqb_neq in Hc.
  unfold Fileops.expand_home, Fileops.Separator. simpl. now rewrite Hc.
Qed.

Lemma substring_all s : String.substring 0 (String.length s) s = s.
Proof. induction s as [|a s IH]; [reflexivity|]. simpl. now rewrite IH. Qed.

Lemma expand_home_tilde os rest home :
  (rest = "" \/ exists r, rest = String "/" r) ->
  Fileops.os_UserHomeDir os = Ok home ->
  Fileops.expand_home os (String "~" rest) = (Ok (Fileops.filepath_Join os home rest), [Fileops.OsUserHomeDir]).
Proof.
  intros Hrest Hh. unfold Fileops.expand_home.
  destruct Hrest as [->|[r ->]]; simpl; rewrite Hh; [reflexivity|].
  now rewrite substring_all.
Qed.

(** C10, as amended: ReadFile, GrepFiles and GlobFiles first check the
    context: once it is cancelled they return its error, with no
    operating-system call, whatever the path. GrepFiles then compiles the
    regular expression: one that does not compile gives the "invalid regex
    pattern" error, again with no operating-system call, whatever the path.
    Otherwise (context not cancelled and, for GrepFiles, a regular
    expression that compiles) a path argument '~' followed by any character
    other than '/' (the separator) gives the "unsupported path format"
    error with no operating-system call at all; '~' alone and '~/...' are
    expanded to the home directory joined with the rest of the path. *)
Theorem tilde_username_rejected_before_any_access os ctx :
  (forall e, ctx 0 = Some e -> forall path pattern (ic : bool),
     Fileops.ReadFile os ctx path = (Err e, []) /\
     Fileops.GlobFiles os ctx path = (Err e, []) /\
     Fileops.GrepFiles os ctx pattern path ic = (Err e, [])) /\
  (ctx 0 = None -> forall pattern (ic : bool) d path,
     Fileops.regexp_Compile os ((if ic then "(?i)" else "") +:+ pattern) = Err d ->
     Fileops.GrepFiles os ctx pattern path ic = (Err ("invalid regex pattern: " +:+ d), [])) /\
  (ctx 0 = None -> forall c rest, c <> "/"%char ->
     Fileops.ReadFile os ctx (String "~" (String c rest)) = (Err Fileops.unsupported_path, []) /\
     Fileops.GlobFiles os ctx (String "~" (String c rest)) = (Err Fileops.unsupported_path, []) /\
     (forall pattern (ic : bool) (re : string -> bool),
        Fileops.regexp_Compile os ((if ic then "(?i)" else "") +:+ pattern) = Ok re ->
        Fileops.GrepFiles os ctx pattern (String "~" (String c rest)) ic
          = (Err Fileops.unsupported_path, []))) /\
  (forall rest home, (rest = "" \/ exists r, rest = String "/" r) ->
     Fileops.os_UserHomeDir os = Ok home ->
     Fileops.expand_home os (String "~" rest)
       = (Ok (Fileops.filepath_Join os home rest), [Fileops.OsUserHomeDir])).
Proof.
  split; [|split; [|split]].
  - intros e Hctx path pattern ic. unfold Fileops.ReadFile, Fileops.GlobFiles, Fileops.GrepFiles.
    rewrite Hctx. split; [reflexivity|]. split; reflexivity.
  - intros Hctx pattern ic d path Hre. unfold Fileops.GrepFiles. cbv zeta.
    now rewrite Hctx, Hre.
  - intros Hctx c rest Hc. split; [|split].
    + unfold Fileops.ReadFile. now rewrite Hctx, expand_home_username.
    + unfold Fileops.GlobFiles. now rewrite Hctx, expand_home_username.
    + intros pattern ic re Hre. unfold Fileops.GrepFiles. cbv zeta.
      now rewrite Hctx, Hre, expand_home_username.
  - apply expand_home_tilde.
Qed.

(** ** Concrete runs *)
Import Scenarios.

(** Witness of C2: a service that always asks for a tool call. *)
Lemma Handle_budget_witness :
  RequireString req_continue "task" = Ok "and then?" /\
  (forall c tr p, exists r, env_remote env_tools c tr p = Ok r /\ extractToolCalls r <> []) /\
  let '(res, st') := Handle env_tools req_continue st0 in
  res = NewToolResultError "Max function call iterations reached" /\
  exists new, trace st' = trace st0 ++ new /\ count_remote new = S maxIterations.
Proof.
  assert (Hs : forall c tr p, exists r, env_remote env_tools c tr p = Ok r /\ extractToolCalls r <> []).
  { intros c tr p. eexists. split; [reflexivity|discriminate]. }
  split; [reflexivity|]. split; [exact Hs|].
  exact (Handle_budget_after_initial_plus_max_followups env_tools req_continue st0 "and then?" eq_refl Hs).
Defined.

(** Counterexample to C2 as stated: the budget error comes after eleven
    remote calls, one more than maxIterations. *)
Lemma budget_error_after_eleven_remote_calls :
  fst (Handle env_tools req_continue st0) = NewToolResultError "Max function call iterations reached" /\
  count_remote (trace (snd (Handle env_tools req_continue st0))) = 11 /\
  maxIterations = 10.
Proof. split; [|split]; vm_compute; reflexivity. Qed.

(** Witness of C3. *)
Lemma followup_outputs_witness :
  extractToolCalls resp_two_calls <> [] /\
  let calls := extractToolCalls resp_two_calls in
  let '(res, st') := tool_loop env_text "default" 1 resp_two_calls st0 in
  exists rs r post,
    length rs = length calls /\
    length (zip_with output_item calls rs) = length calls /\
    trace st' = trace st0 ++ zip_with exec_event calls rs ++
      EvRemote (followup_params (resp_ID resp_two_calls) (zip_with output_item calls rs)) r :: post.
Proof.
  assert (H : extractToolCalls resp_two_calls <> []) by discriminate.
  split; [exact H|].
  exact (followup_outputs_match_calls env_text "default" 0 resp_two_calls st0 H).
Defined.

(** Witness of C4: the second call of [resp_two_calls] names no tool. *)
Lemma failed_call_witness :
  extractToolCalls resp_two_calls !! 1 =
    Some {| tc_ID := "call_b"; tc_Name := "list_dir"; tc_Arguments := "{}" |} /\
  call_fails env_text {| tc_ID := "call_b"; tc_Name := "list_dir"; tc_Arguments := "{}" |}
    ("unknown function: " +:+ "list_dir") /\
  let '(outs, st') := execute_tool_calls env_text (extractToolCalls resp_two_calls) st0 in
  outs !! 1 = Some (FunctionCallOutput "call_b" ("Error: " +:+ ("unknown function: " +:+ "list_dir"))) /\
  length outs = length (extractToolCalls resp_two_calls) /\
  exists rs, length rs = length (extractToolCalls resp_two_calls) /\
    trace st' = trace st0 ++ zip_with exec_event (extractToolCalls resp_two_calls) rs.
Proof.
  assert (Hi : extractToolCalls resp_two_calls !! 1 =
    Some {| tc_ID := "call_b"; tc_Name := "list_dir"; tc_Arguments := "{}" |}) by reflexivity.
  assert (Hf : call_fails env_text {| tc_ID := "call_b"; tc_Name := "list_dir"; tc_Arguments := "{}" |}
    ("unknown function: " +:+ "list_dir")).
  { apply (fails_unknown env_text {| tc_ID := "call_b"; tc_Name := "list_dir"; tc_Arguments := "{}" |}).
    apply (bool_decide_unpack _). vm_compute. exact I. }
  split; [exact Hi|]. split; [exact Hf|].
  exact (failed_call_gets_inline_error env_text _ st0 1 _ _ Hi Hf).
Defined.

(** Witness of C5: two attached files, the first one missing. *)
Lemma attached_read_failures_witness :
  RequireString req_files "task" = Ok "list configs" /\
  GetStringSlice req_files "files" [] <> [] /\
  let files := GetStringSlice req_files "files" [] in
  let cid := effective_id (GetString req_files "conversation_id" "") in
  let '(res, st') := Handle env_text req_files st0 in
  exists rs prompt prev r rest,
    length rs = length files /\
    (forall i path r, files !! i = Some path -> rs !! i = Some r ->
       exists c, r = fo_ReadFile (env_fileOps env_text) c path) /\
    trace st' = trace st0 ++ zip_with EvAttach files rs ++
      (if GetBool req_files "continue" true then [] else [EvClear cid]) ++
      EvRemote (initial_params prompt prev) r :: rest /\
    exists a b, prompt = a +:+ files_block (zip_with attached_part files rs) +:+ b.
Proof.
  assert (Ht : RequireString req_files "task" = Ok "list configs") by reflexivity.
  assert (Hne : GetStringSlice req_files "files" [] <> []) by discriminate.
  split; [exact Ht|]. split; [exact Hne|].
  exact (attached_read_failures_are_inlined env_text req_files st0 "list configs" Ht Hne).
Defined.

(** Witness of C6: a fresh request while "default" points to resp_41. *)
Lemma fresh_request_witness :
  RequireString req_sum "task" = Ok "2+2?" /\ GetBool req_sum "continue" true = false /\
  let cid := effective_id (GetString req_sum "conversation_id" "") in
  let '(res, st') := Handle env_text req_sum st_ptr in
  exists pre p r post,
    trace st' = trace st_ptr ++ pre ++ EvRemote p r :: post /\
    count_remote pre = 0 /\
    last pre = Some (EvClear cid) /\
    replay (conv st_ptr) pre !! cid = None /\
    p_PreviousResponseID p = None.
Proof.
  assert (Ht : RequireString req_sum "task" = Ok "2+2?") by reflexivity.
  assert (Hc : GetBool req_sum "continue" true = false) by reflexivity.
  split; [exact Ht|]. split; [exact Hc|].
  exact (fresh_request_clears_pointer_first env_text req_sum st_ptr "2+2?" Ht Hc).
Defined.

(** Witness of C7: continuing "default" from resp_41. *)
Lemma continued_request_witness :
  RequireString req_continue "task" = Ok "and then?" /\
  GetBool req_continue "continue" true = true /\
  let cid := effective_id (GetString req_continue "conversation_id" "") in
  let '(res, st') := Handle env_text req_continue st_ptr in
  exists pre p r post,
    trace st' = trace st_ptr ++ pre ++ EvRemote p r :: post /\
    count_remote pre = 0 /\
    replay (conv st_ptr) pre = conv st_ptr /\
    (forall P, conv st_ptr !! cid = Some P -> P <> "" -> p_PreviousResponseID p = Some P) /\
    (conv st_ptr !! cid = None -> p_PreviousResponseID p = None) /\
    (conv st_ptr !! cid = Some "" -> p_PreviousResponseID p = None).
Proof.
  assert (Ht : RequireString req_continue "task" = Ok "and then?") by reflexivity.
  assert (Hc : GetBool req_continue "continue" true = true) by reflexivity.
  split; [exact Ht|]. split; [exact Hc|].
  exact (continued_request_uses_stored_pointer env_text req_continue st_ptr "and then?" Ht Hc).
Defined.

(** Counterexample to C7 as stated: the stored pointer of "default" is the
    empty string, and the initial call carries no previous-response id. *)
Lemma stored_empty_pointer_is_not_sent :
  conv st_empty_ptr !! "default" = Some "" /\
  exists p r post,
    trace (snd (Handle env_text req_continue st_empty_ptr)) = EvRemote p r :: post /\
    p_PreviousResponseID p = None.
Proof.
  split; [reflexivity|].
  vm_compute. do 3 eexists. split; reflexivity.
Qed.

(** Counterexample to C8 as stated: a blank task and an empty task are
    both sent to the remote service, and the blank one gets an answer. *)
Lemma blank_and_empty_tasks_reach_remote :
  fst (Handle env_text req_blank_task st0) = NewToolResultText "4" /\
  count_remote (trace (snd (Handle env_text req_blank_task st0))) = 1 /\
  count_remote (trace (snd (Handle env_text req_empty_task st0))) = 1.
Proof. split; [|split]; vm_compute; reflexivity. Qed.


Lemma same_observations_blind : same_observations env_blind_cancelled env_blind.
Proof. repeat split. Qed.

(** Witness of C10 on [os0]: "~bob/notes.txt" with a context never
    cancelled. *)
Lemma tilde_username_witness :
  never_cancelled 0 = None /\ "b"%char <> "/"%char /\
  Fileops.ReadFile os0 never_cancelled "~bob/notes.txt" = (Err Fileops.unsupported_path, []) /\
  Fileops.GlobFiles os0 never_cancelled "~bob/notes.txt" = (Err Fileops.unsupported_path, []).
Proof.
  assert (H0 : never_cancelled 0 = None) by reflexivity.
  assert (Hb : "b"%char <> "/"%char) by discriminate.
  split; [exact H0|]. split; [exact Hb|].
  destruct (tilde_username_rejected_before_any_access os0 never_cancelled) as (_ & _ & H & _).
  destruct (H H0 "b"%char "ob/notes.txt" Hb) as (Hr & Hg & _).
  split; [exact Hr|exact Hg].
Defined.

(** Counterexample to C10 as stated: "~bob/..." under a cancelled context,
    and as the path of GrepFiles with a pattern that does not compile,
    gets another error; and a bare "~" is expanded to the home directory. *)
Lemma tilde_username_other_outcomes :
  Fileops.ReadFile os0 (fun _ => Some "context canceled") "~bob/notes.txt"
    = (Err "context canceled", []) /\
  Fileops.GrepFiles os0 never_cancelled "(" "~bob/*.go" false
    = (Err ("invalid regex pattern: " +:+ "error parsing regexp: missing closing )"), []) /\
  fst (Fileops.GlobFiles os0 never_cancelled "~") = Ok "/home/u".
Proof. split; [|split]; vm_compute; reflexivity. Qed.

(** ** Further properties of the orchestrator and of the file operations *)

Lemma concat_text_nonempty acc parts :
  acc <> "" -> concat_text acc parts = join_from false acc parts nl.
Proof.
  revert acc. induction parts as [|p rest IH]; intros acc Hacc; [reflexivity|].
  cbn [concat_text join_from].
  destruct (String.eqb acc "") eqn:E; [apply String.eqb_eq in E; contradiction|].
  apply IH. destruct acc as [|a acc]; [contradiction|]. discriminate.
Qed.

Lemma join_from_nonempty acc parts sep : acc <> "" -> join_from false acc parts sep <> "".
Proof.
  revert acc. induction parts as [|p rest IH]; intros acc Hacc; [exact Hacc|].
  cbn [join_from]. apply IH. destruct acc as [|a acc]; [contradiction|]. discriminate.
Qed.

Lemma extractTextContent_skip resp :
  extractTextContent resp = joinStrings (skip_leading_empty (text_parts (resp_Output resp))) nl.
Proof.
  unfold extractTextContent, joinStrings.
  induction (text_parts (resp_Output resp)) as [|p rest IH]; [reflexivity|].
  cbn [skip_leading_empty]. destruct (String.eqb p "") eqn:E.
  - apply String.eqb_eq in E. subst p. exact IH.
  - apply String.eqb_neq in E. cbn [concat_text join_from].
    change (concat_text p rest = join_from false p rest nl).
    now apply concat_text_nonempty.
Qed.

Lemma skip_leading_empty_blank l :
  String.eqb (joinStrings (skip_leading_empty l) nl) "" = forallb (fun s => String.eqb s "") l.
Proof.
  induction l as [|p rest IH]; [reflexivity|].
  cbn [skip_leading_empty forallb]. destruct (String.eqb p "") eqn:E; [exact IH|].
  apply String.eqb_neq in E. apply String.eqb_neq.
  unfold joinStrings. cbn [join_from]. change (join_from false p rest nl <> "").
  now apply join_from_nonempty.
Qed.

Lemma split_first_remote X p1 r1 Y pre p r post :
  count_remote X = 0 -> X ++ EvRemote p1 r1 :: Y = pre ++ EvRemote p r :: post ->
  (pre = X /\ p = p1 /\ r = r1 /\ post = Y) \/
  exists pre', pre = X ++ EvRemote p1 r1 :: pre' /\ Y = pre' ++ EvRemote p r :: post.
Proof.
  revert pre. induction X as [|x X IH]; intros pre Hc Hl.
  - destruct pre as [|y pre]; simpl in Hl; inversion Hl; subst.
    + left. auto.
    + right. exists pre. auto.
  - assert (Hx : is_remote x = false /\ count_remote X = 0).
    { unfold count_remote in *. simpl in Hc. destruct (is_remote x); [discriminate|auto]. }
    destruct Hx as [Hx HX].
    destruct pre as [|y pre]; simpl in Hl; inversion Hl; subst; [discriminate|].
    destruct (IH pre HX H1) as [(-> & -> & -> & ->)|(pre' & -> & HY)].
    + left. auto.
    + right. exists pre'. auto.
Qed.

Lemma tool_loop_frame env cid n resp st k :
  cid <> "" -> k <> cid -> conv (snd (tool_loop env cid n resp st)) !! k = conv st !! k.
Proof.
  intros Hc Hk. revert resp st; induction n as [|n IH]; intros resp st; cbn [tool_loop]; [reflexivity|].
  destruct (extractToolCalls resp) as [|tc tcs]; [destruct (String.eqb _ _); reflexivity|].
  pose proof (execute_tool_calls_spec env (tc :: tcs) st) as Hx.
  destruct (execute_tool_calls env (tc :: tcs) st) as [outs st1].
  destruct Hx as (rs & _ & _ & Hconv1 & _).
  unfold call_remote. destruct (env_remote env _ _ _) as [r|e]; cbv beta iota.
  - rewrite IH, save_resp_set by exact Hc. unfold setRespID, record; cbn [conv].
    rewrite lookup_insert_ne by (intros E; apply Hk; symmetry; exact E). now rewrite Hconv1.
  - cbn [snd]. unfold record; cbn [conv]. now rewrite Hconv1.
Qed.

Lemma tool_loop_count env cid n resp st :
  let '(res, st') := tool_loop env cid n resp st in
  exists new, trace st' = trace st ++ new /\ count_remote new <= n.
Proof.
  revert resp st; induction n as [|n IH]; intros resp st; cbn [tool_loop].
  - exists []. rewrite app_nil_r. split; [reflexivity|]. apply Nat.le_refl.
  - destruct (extractToolCalls resp) as [|tc tcs].
    + destruct (String.eqb _ _); exists []; rewrite app_nil_r; (split; [reflexivity|cbn; lia]).
    + pose proof (execute_tool_calls_spec env (tc :: tcs) st) as Hx.
      destruct (execute_tool_calls env (tc :: tcs) st) as [outs st1].
      destruct Hx as (rs & _ & Htr1 & _ & _ & _).
      unfold call_remote.
      destruct (env_remote env _ _ _) as [r|e]; cbv beta iota.
      * match goal with |- context [tool_loop env cid n r ?s] =>
          pose proof (save_resp_trace cid r (record st1 (EvRemote (followup_params (resp_ID resp) outs) (Ok r)))) as [_ (l & Hl & Hcl)];
          specialize (IH r s); destruct (tool_loop env cid n r s) as [res st'] end.
        destruct IH as (new & Htr & Hcnt).
        exists (zip_with exec_event (tc :: tcs) rs ++
                EvRemote (followup_params (resp_ID resp) outs) (Ok r) :: l ++ new).
        split.
        -- rewrite Htr, Hl. unfold record; cbn [trace]. rewrite Htr1, <- !app_assoc. reflexivity.
        -- rewrite count_remote_app, count_remote_exec, count_remote_cons_remote,
             count_remote_app, Hcl. lia.
      * exists (zip_with exec_event (tc :: tcs) rs ++ [EvRemote (followup_params (resp_ID resp) outs) (Err e)]).
        split.
        -- unfold record; cbn [trace]. rewrite Htr1, <- app_assoc. reflexivity.
        -- rewrite count_remote_app, count_remote_exec. cbn. lia.
Qed.

Lemma execs_ok_app env t l1 l2 :
  execs_ok env t (l1 ++ l2) <-> execs_ok env t l1 /\ execs_ok env (t + length l1) l2.
Proof.
  revert t. induction l1 as [|ev l1 IH]; intros t.
  - simpl. rewrite Nat.add_0_r. tauto.
  - destruct ev; simpl; rewrite IH; simpl; rewrite Nat.add_succ_r; tauto.
Qed.

Lemma execs_ok_at env t pre name args r post :
  execs_ok env t (pre ++ EvExec name args r :: post) ->
  r = executeFunction env (env_ctx env (t + length pre)) name args.
Proof. intros H. apply execs_ok_app in H as [_ H]. exact (proj1 H). Qed.

Lemma execs_ok_attach env t files rs : execs_ok env t (zip_with EvAttach files rs).
Proof. revert t rs. induction files as [|f files IH]; intros t [|r rs]; simpl; auto. Qed.

Lemma execute_tool_calls_execs env calls st :
  let '(outs, st') := execute_tool_calls env calls st in
  exists new, trace st' = trace st ++ new /\ execs_ok env (length (trace st)) new.
Proof.
  revert st. induction calls as [|tc calls IH]; intros st; cbn [execute_tool_calls].
  - exists []. rewrite app_nil_r. split; [reflexivity|exact I].
  - match goal with |- context [execute_tool_calls env calls ?s] =>
      specialize (IH s); destruct (execute_tool_calls env calls s) as [outs st'] end.
    destruct IH as (new & Htr & Hok).
    exists (EvExec (tc_Name tc) (tc_Arguments tc)
              (executeFunction env (ctx_now env st) (tc_Name tc) (tc_Arguments tc)) :: new).
    unfold record in Htr, Hok; cbn [trace] in Htr, Hok. split.
    + rewrite Htr, <- app_assoc. reflexivity.
    + cbn [execs_ok]. split; [reflexivity|]. rewrite length_app, Nat.add_1_r in Hok. exact Hok.
Qed.

Lemma tool_loop_rounds env cid n resp st :
  cid <> "" ->
  let '(res, st') := tool_loop env cid n resp st in
  exists new, trace st' = trace st ++ new /\ execs_ok env (length (trace st)) new /\
    (0 < n -> extractToolCalls resp <> [] -> tool_round resp new) /\
    (forall pre p resp' post, new = pre ++ EvRemote p (Ok resp') :: post ->
       S (count_remote pre) < n -> extractToolCalls resp' <> [] ->
       exists post0, post = EvSet cid (resp_ID resp') :: post0 /\ tool_round resp' post0).
Proof.
  intros Hc. revert resp st; induction n as [|n IH]; intros resp st; cbn [tool_loop].
  - exists []. rewrite app_nil_r. split; [reflexivity|]. split; [exact I|].
    split; [intros H; lia|]. intros pre p r post Hl. destruct pre; discriminate.
  - destruct (extractToolCalls resp) as [|tc tcs] eqn:Ec.
    + destruct (String.eqb _ _); exists []; rewrite app_nil_r;
        (split; [reflexivity|]); (split; [exact I|]);
        (split; [intros _ H; exfalso; apply H; first [reflexivity|exact Ec]
                |intros pre p r post Hl; destruct pre; discriminate]).
    + pose proof (execute_tool_calls_spec env (tc :: tcs) st) as Hx.
      pose proof (execute_tool_calls_execs env (tc :: tcs) st) as Hy.
      destruct (execute_tool_calls env (tc :: tcs) st) as [outs st1].
      destruct Hx as (rs & Hlen & Htr1 & _ & -> & _).
      destruct Hy as (X' & HtrX & HokX).
      rewrite Htr1 in HtrX. apply app_inv_head in HtrX. subst X'.
      set (X := zip_with exec_event (tc :: tcs) rs) in *.
      assert (HX : count_remote X = 0) by apply count_remote_exec.
      set (P := followup_params (resp_ID resp) (zip_with output_item (tc :: tcs) rs)).
      assert (Hround : forall r post, tool_round resp (X ++ EvRemote P r :: post)).
      { intros r post. unfold tool_round. rewrite Ec. exists rs, r, post.
        split; [exact Hlen|reflexivity]. }
      unfold call_remote.
      destruct (env_remote env _ _ _) as [r|e]; cbv beta iota.
      * rewrite save_resp_set by exact Hc.
        set (st2 := setRespID (record st1 (EvRemote P (Ok r))) cid (resp_ID r)).
        assert (Hl2 : length (trace st2) = S (S (length (trace st) + length X))).
        { subst st2. unfold setRespID, record; cbn [trace].
          rewrite !length_app, Htr1, length_app. cbn [length]. lia. }
        specialize (IH r st2). destruct (tool_loop env cid n r st2) as [res st'].
        destruct IH as (new & Htr & Hok & Hfirst & Hlater).
        exists (X ++ EvRemote P (Ok r) :: EvSet cid (resp_ID r) :: new).
        split; [|split; [|split]].
        -- rewrite Htr. subst st2. unfold setRespID, record; cbn [trace].
           rewrite Htr1, <- !app_assoc. reflexivity.
        -- apply execs_ok_app. split; [exact HokX|]. cbn [execs_ok].
           rewrite Hl2 in Hok. exact Hok.
        -- intros _ _. apply Hround.
        -- intros pre p resp' post Hl Hlt Hne.
           destruct (split_first_remote X P (Ok r) _ pre p (Ok resp') post HX Hl)
             as [(-> & -> & Hr & ->)|(pre' & -> & HY)].
           ++ injection Hr as ->. exists new. split; [reflexivity|].
              apply Hfirst; [rewrite HX in Hlt; lia|exact Hne].
           ++ destruct pre' as [|y pre']; simpl in HY; inversion HY; subst.
              apply (Hlater pre' p resp' post eq_refl); [|exact Hne].
              rewrite count_remote_app, HX, count_remote_cons_remote in Hlt.
              change (count_remote (EvSet cid (resp_ID r) :: pre')) with (count_remote pre') in Hlt.
              lia.
      * exists (X ++ [EvRemote P (Err e)]). split; [|split; [|split]].
        -- unfold record; cbn [trace]. rewrite Htr1, <- app_assoc. reflexivity.
        -- apply execs_ok_app. split; [exact HokX|exact I].
        -- intros _ _. apply Hround.
        -- intros pre p resp' post Hl.
           destruct (split_first_remote X P (Err e) [] pre p (Ok resp') post HX Hl)
             as [(_ & _ & Hr & _)|(pre' & _ & HY)]; [discriminate Hr|destruct pre'; discriminate].
Qed.

Lemma Handle_shape env req st t :
  RequireString req "task" = Ok t ->
  let cid := effective_id (GetString req "conversation_id" "") in
  exists A p0 r0 st1,
    count_remote A = 0 /\
    replay (conv st) A = (if GetBool req "continue" true then conv st else delete cid (conv st)) /\
    trace st1 = trace st ++ A ++ [EvRemote p0 r0] /\
    conv st1 = replay (conv st) A /\
    execs_ok env (length (trace st)) A /\
    Handle env req st = match r0 with
      | Err e => (NewToolResultError ("OpenAI API error: " +:+ e), st1)
      | Ok resp => tool_loop env cid maxIterations resp (save_resp cid resp st1)
      end.
Proof.
  intros Ht cid. unfold Handle. rewrite Ht. cbv zeta. fold cid.
  pose proof (read_attached_spec env (GetStringSlice req "files" []) st) as Hra.
  destruct (read_attached env _ st) as [fc st1].
  destruct Hra as (rs & _ & Htr1 & Hconv1 & _ & _).
  set (A0 := zip_with EvAttach (GetStringSlice req "files" []) rs).
  destruct (GetBool req "continue" true); cbv beta iota; unfold call_remote.
  - match goal with |- context [env_remote env ?c ?tr ?p] =>
      exists A0, p, (env_remote env c tr p), (record st1 (EvRemote p (env_remote env c tr p))) end.
    unfold A0.
    split; [apply count_remote_attach|]. split; [apply replay_attach_events|].
    split; [unfold record; cbn [trace]; rewrite Htr1, <- app_assoc; reflexivity|].
    split; [unfold record; cbn [conv]; rewrite Hconv1; symmetry; apply replay_attach_events|].
    split; [apply execs_ok_attach|].
    destruct (env_remote _ _ _ _); reflexivity.
  - match goal with |- context [env_remote env ?c ?tr ?p] =>
      exists (A0 ++ [EvClear cid]), p, (env_remote env c tr p),
        (record (clearRespID st1 cid) (EvRemote p (env_remote env c tr p))) end.
    unfold A0.
    split; [rewrite count_remote_app, count_remote_attach; reflexivity|].
    split; [rewrite replay_app, replay_attach_events; reflexivity|].
    split; [unfold record, clearRespID; cbn [trace]; rewrite Htr1, <- !app_assoc; reflexivity|].
    split; [unfold record, clearRespID; cbn [conv];
            rewrite Hconv1, replay_app, replay_attach_events; reflexivity|].
    split; [apply execs_ok_app; split; [apply execs_ok_attach|exact I]|].
    destruct (env_remote _ _ _ _); reflexivity.
Qed.

Lemma Handle_rounds env req st :
  let cid := effective_id (GetString req "conversation_id" "") in
  let '(res, st') := Handle env req st in
  exists new, trace st' = trace st ++ new /\ execs_ok env (length (trace st)) new /\
    (forall pre p resp post, new = pre ++ EvRemote p (Ok resp) :: post ->
       count_remote pre < maxIterations -> extractToolCalls resp <> [] ->
       exists post0, post = EvSet cid (resp_ID resp) :: post0 /\ tool_round resp post0).
Proof.
  intros cid. destruct (RequireString req "task") as [t|e] eqn:Ht.
  2:{ rewrite (Handle_task_error env req st e Ht). exists []. rewrite app_nil_r.
      split; [reflexivity|]. split; [exact I|]. intros pre p r post Hl. destruct pre; discriminate. }
  pose proof (Handle_shape env req st t Ht) as H. cbv zeta in H. fold cid in H.
  destruct H as (A & p0 & r0 & st1 & HA & _ & Htr1 & _ & HexA & ->).
  destruct r0 as [resp|e]; cbv beta iota.
  - rewrite save_resp_set by apply effective_id_nonempty.
    set (st2 := setRespID st1 cid (resp_ID resp)).
    assert (Hl2 : length (trace st2) = S (S (length (trace st) + length A))).
    { subst st2. unfold setRespID; cbn [trace]. rewrite length_app, Htr1, !length_app.
      cbn [length]. lia. }
    pose proof (tool_loop_rounds env cid maxIterations resp st2 (effective_id_nonempty _)) as HL.
    destruct (tool_loop env cid maxIterations resp st2) as [res st'].
    destruct HL as (new & Htr & Hok & Hfirst & Hlater).
    exists (A ++ EvRemote p0 (Ok resp) :: EvSet cid (resp_ID resp) :: new).
    split; [|split].
    + rewrite Htr. subst st2. unfold setRespID; cbn [trace]. rewrite Htr1, <- !app_assoc. reflexivity.
    + apply execs_ok_app. split; [exact HexA|]. cbn [execs_ok]. rewrite Hl2 in Hok. exact Hok.
    + intros pre p resp' post Hl Hlt Hne.
      destruct (split_first_remote A p0 (Ok resp) _ pre p (Ok resp') post HA Hl)
        as [(-> & -> & Hr & ->)|(pre' & -> & HY)].
      * injection Hr as ->. exists new. split; [reflexivity|].
        apply Hfirst; [unfold maxIterations; lia|exact Hne].
      * destruct pre' as [|y pre']; simpl in HY; inversion HY; subst.
        apply (Hlater pre' p resp' post eq_refl); [|exact Hne].
        rewrite count_remote_app, HA, count_remote_cons_remote in Hlt.
        change (count_remote (EvSet cid (resp_ID resp) :: pre')) with (count_remote pre') in Hlt.
        lia.
  - exists (A ++ [EvRemote p0 (Err e)]). split; [exact Htr1|]. split.
    + apply execs_ok_app. split; [exact HexA|exact I].
    + intros pre p resp' post Hl.
      destruct (split_first_remote A p0 (Err e) [] pre p (Ok resp') post HA Hl)
        as [(_ & _ & Hr & _)|(pre' & _ & HY)]; [discriminate Hr|destruct pre'; discriminate].
Qed.

Lemma executeFunction_cancelled env e name args :
  honours_cancellation (env_fileOps env) ->
  exists reason, executeFunction env (Some e) name args = Err reason /\
    (reason = e \/ (exists d, reason = "invalid arguments: " +:+ d) \/
     reason = "unknown function: " +:+ name).
Proof.
  intros Hh. destruct (Hh e) as (Hr & Hg & Hgl). unfold executeFunction.
  destruct (String.eqb name "read_file").
  { destruct (unmarshal_read (env_json env) args) as [path|d].
    - rewrite Hr. exists e. split; [reflexivity|left; reflexivity].
    - exists ("invalid arguments: " +:+ d). split; [reflexivity|right; left; exists d; reflexivity]. }
  destruct (String.eqb name "grep_files").
  { destruct (unmarshal_grep (env_json env) args) as [[[pattern path] ic]|d].
    - rewrite Hg. exists e. split; [reflexivity|left; reflexivity].
    - exists ("invalid arguments: " +:+ d). split; [reflexivity|right; left; exists d; reflexivity]. }
  destruct (String.eqb name "glob_files").
  { destruct (unmarshal_glob (env_json env) args) as [pattern|d].
    - rewrite Hgl. exists e. split; [reflexivity|left; reflexivity].
    - exists ("invalid arguments: " +:+ d). split; [reflexivity|right; left; exists d; reflexivity]. }
  exists ("unknown function: " +:+ name). split; [reflexivity|right; right; reflexivity].
Qed.



Lemma scan_lines_spec re k lines acc :
  Fileops.scan_lines None re k lines acc =
  Ok (acc ++ map (fun il => pretty (fst il) +:+ ":" +:+ snd il)
              (List.filter (fun il => re (snd il)) (zip (seq (S k) (length lines)) lines))).
Proof.
  revert k acc. induction lines as [|l lines IH]; intros k acc.
  - simpl. now rewrite app_nil_r.
  - cbn [Fileops.scan_lines length seq zip List.filter]. rewrite IH. cbn [fst snd].
    destruct (re l); cbn [map]; [rewrite <- app_assoc|]; reflexivity.
Qed.

Section FileopsLoops.
Variable os : Fileops.Os.
Variable ctx : nat -> option string.
Hypothesis Hctx : forall k, ctx k = None.

Lemma glob_loop_spec ms results calls :
  fst (Fileops.glob_loop os ctx ms results calls) = Ok (results ++ flat_map (glob_entry os) ms).
Proof.
  revert results calls. induction ms as [|m ms IH]; intros results calls.
  - simpl. now rewrite app_nil_r.
  - cbn [Fileops.glob_loop]. rewrite Hctx. cbv zeta. cbn [flat_map]. unfold glob_entry at 1.
    destruct (Fileops.os_Stat os m) as [info|e]; rewrite IH; [now rewrite app_assoc|reflexivity].
Qed.

Hypothesis Hscan : forall q lines e, Fileops.os_Open_scan os q <> Ok (lines, Some e).

Lemma grep_loop_spec re ms results calls :
  fst (Fileops.grep_loop os ctx re ms results calls) = Ok (results ++ flat_map (grep_file os re) ms).
Proof.
  revert results calls. induction ms as [|m ms IH]; intros results calls.
  - simpl. now rewrite app_nil_r.
  - cbn [Fileops.grep_loop]. rewrite Hctx. cbv zeta. cbn [flat_map]. unfold grep_file at 1.
    destruct (Fileops.os_Stat os m) as [info|e]; [|apply IH].
    destruct (Fileops.fi_IsDir info); [apply IH|].
    destruct (Fileops.os_Open_scan os m) as [[lines scanErr]|e] eqn:Eo; [|apply IH].
    destruct scanErr as [e|]; [exfalso; exact (Hscan m lines e Eo)|].
    rewrite Hctx, scan_lines_spec, app_nil_l. unfold numbered_hits.
    destruct (map _ _) as [|h hs]; rewrite IH; [reflexivity|].
    now rewrite <- !app_assoc.
Qed.

End FileopsLoops.

(** extractTextContent skips the leading empty text parts and joins the
    remaining parts with newlines, empty ones included. *)
Theorem extractTextContent_joins_after_leading_empty resp :
  extractTextContent resp = joinStrings (skip_leading_empty (text_parts (resp_Output resp))) nl.
Proof. exact (extractTextContent_skip resp). Qed.

(** While the loop has a round left, a response without tool calls ends
    it with no further effect: the result is the error "No text content in
    response" exactly when every text part of the response is empty, and
    otherwise the extracted text. Once the rounds are used up, the
    response at hand is not inspected: the result is "Max function call
    iterations reached", whatever the response holds, still with no
    further effect. *)
Theorem tool_loop_final_answer env cid n resp st :
  (extractToolCalls resp = [] ->
   tool_loop env cid (S n) resp st =
     (if forallb (fun s => String.eqb s "") (text_parts (resp_Output resp))
      then NewToolResultError "No text content in response"
      else NewToolResultText (extractTextContent resp), st)) /\
  tool_loop env cid 0 resp st = (NewToolResultError "Max function call iterations reached", st).
Proof.
  split; [|reflexivity].
  intros H. cbn [tool_loop]. rewrite H.
  rewrite extractTextContent_skip, skip_leading_empty_blank. now destruct (forallb _ _).
Qed.

(** The prompt always ends with the task. It is the task alone when there
    is neither context nor attached files. It starts with "Context:", a
    newline and the context when a context is given, and otherwise with
    the attached-files block when there is one. *)
Theorem build_prompt_shape context filesContent task :
  (exists pre, build_prompt context filesContent task = pre +:+ task) /\
  (context = "" -> filesContent = "" -> build_prompt context filesContent task = task) /\
  (context <> "" -> exists rest,
     build_prompt context filesContent task = "Context:" +:+ nl +:+ context +:+ rest) /\
  (context = "" -> filesContent <> "" -> exists rest,
     build_prompt context filesContent task = filesContent +:+ rest).
Proof.
  unfold build_prompt.
  destruct (String.eqb context "") eqn:Ec; destruct (String.eqb filesContent "") eqn:Ef;
    cbn [negb andb].
  - apply String.eqb_eq in Ec, Ef. subst.
    split; [exists ""; reflexivity|]. split; [reflexivity|].
    split; [intros H; contradiction|]. intros _ H; contradiction.
  - apply String.eqb_eq in Ec. apply String.eqb_neq in Ef. subst.
    split; [exists (filesContent +:+ nl +:+ "Task:" +:+ nl); now rewrite !string_app_assoc|].
    split; [intros _ H; contradiction|]. split; [intros H; contradiction|].
    intros _ _. exists (nl +:+ "Task:" +:+ nl +:+ task). reflexivity.
  - apply String.eqb_neq in Ec.
    split; [exists ("Context:" +:+ nl +:+ context +:+ nl +:+ nl +:+ "Task:" +:+ nl);
            now rewrite !string_app_assoc|].
    split; [intros H; contradiction|].
    split; [intros _; exists (nl +:+ nl +:+ "Task:" +:+ nl +:+ task); reflexivity|].
    intros H; contradiction.
  - apply String.eqb_neq in Ec.
    split; [exists ("Context:" +:+ nl +:+ context +:+ filesContent +:+ nl +:+ "Task:" +:+ nl);
            now rewrite !string_app_assoc|].
    split; [intros H; contradiction|].
    split; [intros _; exists (filesContent +:+ nl +:+ "Task:" +:+ nl +:+ task); reflexivity|].
    intros H; contradiction.
Qed.

(** Handle reads and writes the conversation map only under the effective
    conversation id of the request: the stored pointers of all other
    conversations are the same after the call. *)
Theorem Handle_leaves_other_conversations env req st k :
  k <> effective_id (GetString req "conversation_id" "") ->
  conv (snd (Handle env req st)) !! k = conv st !! k.
Proof.
  intros Hk. destruct (RequireString req "task") as [t|e] eqn:Ht.
  2:{ now rewrite (Handle_task_error env req st e Ht). }
  pose proof (Handle_shape env req st t Ht) as H. cbv zeta in H.
  destruct H as (A & p0 & r0 & st1 & _ & Hrep & _ & Hconv1 & _ & ->).
  set (cid := effective_id (GetString req "conversation_id" "")) in *.
  assert (Hck : cid <> k) by (intros E; apply Hk; symmetry; exact E).
  assert (Hst1 : conv st1 !! k = conv st !! k).
  { rewrite Hconv1, Hrep. destruct (GetBool req "continue" true); [reflexivity|].
    now apply lookup_delete_ne. }
  destruct r0 as [resp|e]; cbn [snd]; [|exact Hst1].
  rewrite tool_loop_frame by (apply effective_id_nonempty || exact Hk).
  rewrite save_resp_set by apply effective_id_nonempty.
  unfold setRespID; cbn [conv]. rewrite lookup_insert_ne by exact Hck. exact Hst1.
Qed.

(** Whatever the remote service and the file operations do, one Handle
    call makes at most maxIterations + 1 = 11 remote calls. *)
Theorem Handle_remote_calls_bounded env req st :
  exists new, trace (snd (Handle env req st)) = trace st ++ new /\
    count_remote new <= S maxIterations.
Proof.
  destruct (RequireString req "task") as [t|e] eqn:Ht.
  2:{ rewrite (Handle_task_error env req st e Ht). exists []. rewrite app_nil_r. split; [reflexivity|cbn; lia]. }
  pose proof (Handle_shape env req st t Ht) as H. cbv zeta in H.
  destruct H as (A & p0 & r0 & st1 & HA & _ & Htr1 & _ & _ & ->).
  set (cid := effective_id (GetString req "conversation_id" "")) in *.
  destruct r0 as [resp|e]; cbn [snd].
  - pose proof (save_resp_trace cid resp st1) as [_ (l & Hl & Hcl)].
    pose proof (tool_loop_count env cid maxIterations resp (save_resp cid resp st1)) as Hc.
    destruct (tool_loop env cid maxIterations resp (save_resp cid resp st1)) as [res st'].
    destruct Hc as (new & Htr & Hcnt). cbn [snd].
    exists (A ++ EvRemote p0 (Ok resp) :: l ++ new). split.
    + rewrite Htr, Hl, Htr1, <- !app_assoc. reflexivity.
    + rewrite count_remote_app, HA, count_remote_cons_remote, count_remote_app, Hcl. lia.
  - exists (A ++ [EvRemote p0 (Err e)]). split; [exact Htr1|].
    rewrite count_remote_app, HA. cbn. lia.
Qed.

(** ReadFile refuses a file larger than 5 MiB. With the context not yet
    cancelled, it returns the "file too large" error after the stat, and
    the file is never read. A file of exactly 5 MiB is allowed (see
    [ReadFile_success_iff]). *)
Theorem ReadFile_rejects_files_over_limit os ctx path p hc info :
  ctx 0 = None -> Fileops.expand_home os path = (Ok p, hc) ->
  Fileops.os_Stat os p = Ok info -> (Fileops.maxFileSize < Fileops.fi_Size info)%Z ->
  Fileops.ReadFile os ctx path =
    (Err ("file too large (" +:+ pretty (Fileops.fi_Size info) +:+ " bytes, max "
          +:+ pretty Fileops.maxFileSize +:+ " bytes): consider using grep_files instead"),
     hc ++ [Fileops.OsStat p]).
Proof.
  intros Hc He Hs Hlt. unfold Fileops.ReadFile. rewrite Hc, He. cbv beta iota zeta.
  rewrite Hs. rewrite (proj2 (Z.gtb_lt _ _) Hlt). reflexivity.
Qed.

(** ReadFile returns the content c exactly when all of the following hold:
    - the context was not cancelled at the start;
    - home expansion gives a path p;
    - the stat of p succeeds with a size of at most 5 MiB;
    - the context is still not cancelled after the stat;
    - reading p returns c.
    Its operating-system calls are then the expansion's, followed by the
    stat and the read of p. *)
Theorem ReadFile_success_iff os ctx path c calls :
  Fileops.ReadFile os ctx path = (Ok c, calls) <->
  ctx 0 = None /\
  exists p hc info,
    Fileops.expand_home os path = (Ok p, hc) /\ Fileops.os_Stat os p = Ok info /\
    (Fileops.fi_Size info <= Fileops.maxFileSize)%Z /\ ctx (length hc + 1) = None /\
    Fileops.os_ReadFile os p = Ok c /\ calls = hc ++ [Fileops.OsStat p; Fileops.OsReadFile p].
Proof.
  unfold Fileops.ReadFile. split.
  - destruct (ctx 0) eqn:Hc0; [discriminate|]. intros H. split; [reflexivity|].
    destruct (Fileops.expand_home os path) as [[p|e] hc] eqn:He; [|discriminate].
    destruct (Fileops.os_Stat os p) as [info|e] eqn:Hs; [|discriminate].
    destruct (Z.gtb (Fileops.fi_Size info) Fileops.maxFileSize) eqn:Hg; [discriminate|].
    rewrite length_app in H. cbn [length] in H.
    destruct (ctx (length hc + 1)) eqn:Hc1; [discriminate|].
    destruct (Fileops.os_ReadFile os p) as [c'|e] eqn:Hr; [|discriminate].
    inversion H; subst. exists p, hc, info.
    split; [first [reflexivity|assumption]|]. split; [first [reflexivity|assumption]|].
    split; [|split; [first [reflexivity|assumption]|split; [first [reflexivity|assumption]|]]].
    + rewrite Z.gtb_ltb in Hg. apply Z.ltb_ge in Hg. lia.
    + rewrite <- app_assoc. reflexivity.
  - intros (Hc0 & p & hc & info & He & Hs & Hle & Hc1 & Hr & ->).
    rewrite Hc0, He. cbv beta iota zeta. rewrite Hs.
    replace (Z.gtb (Fileops.fi_Size info) Fileops.maxFileSize) with false
      by (symmetry; rewrite Z.gtb_ltb; apply Z.ltb_ge; lia).
    rewrite length_app. cbn [length]. rewrite Hc1, Hr, <- app_assoc. reflexivity.
Qed.

(** With a context that is never cancelled, GlobFiles lists the matches
    of the expanded pattern in order, joined by newlines. A directory gets
    a trailing "/", and a match whose stat fails is left out. When nothing
    matches, the answer is "No files matched the pattern"; when every
    match fails its stat, it is the empty string. *)
Theorem GlobFiles_lists_matches os ctx pattern p hc ms :
  (forall k, ctx k = None) ->
  Fileops.expand_home os pattern = (Ok p, hc) -> Fileops.filepath_Glob os p = Ok ms ->
  fst (Fileops.GlobFiles os ctx pattern) =
    Ok (match ms with
        | [] => "No files matched the pattern"
        | _ => Fileops.Join (flat_map (glob_entry os) ms) nl
        end).
Proof.
  intros Hc He Hg. unfold Fileops.GlobFiles. rewrite Hc, He. cbv beta iota zeta. rewrite Hg.
  destruct ms as [|m ms]; [reflexivity|].
  pose proof (glob_loop_spec os ctx Hc (m :: ms) [] (hc ++ [Fileops.OsGlob p])) as Hl.
  destruct (Fileops.glob_loop os ctx (m :: ms) [] (hc ++ [Fileops.OsGlob p])) as [r calls].
  cbn [fst] in Hl |- *. now subst r.
Qed.

(** GrepFiles numbers the lines it reports from 1, in file order: the
    scan of a file (with a context not cancelled) returns "n:line" for
    each line number n whose line the regular expression matches. *)
Theorem scan_lines_numbers_from_one re lines :
  Fileops.scan_lines None re 0 lines [] = Ok (numbered_hits re lines).
Proof. rewrite scan_lines_spec. reflexivity. Qed.

(** With a context that is never cancelled, a regular expression that
    compiles and scans that end without error, GrepFiles reports the
    matched paths in order. Each file with at least one matching line
    gives a newline, its path and ":", followed by its numbered matching
    lines. Directories, files whose stat or open fails, and files without
    a match contribute nothing. The answer is "No files matched the
    pattern" when the glob matches nothing, and "No matches found" when
    no line matches. *)
Theorem GrepFiles_reports_matching_lines os ctx pattern pathPattern (ic : bool) re p hc ms :
  (forall k, ctx k = None) ->
  Fileops.regexp_Compile os ((if ic then "(?i)" else "") +:+ pattern) = Ok re ->
  Fileops.expand_home os pathPattern = (Ok p, hc) ->
  Fileops.filepath_Glob os p = Ok ms ->
  (forall q lines e, Fileops.os_Open_scan os q <> Ok (lines, Some e)) ->
  fst (Fileops.GrepFiles os ctx pattern pathPattern ic) =
    Ok (match ms with
        | [] => "No files matched the pattern"
        | _ => match flat_map (grep_file os re) ms with
               | [] => "No matches found"
               | hits => Fileops.Join hits nl
               end
        end).
Proof.
  intros Hc Hre He Hg Hs. unfold Fileops.GrepFiles. rewrite Hc. cbv zeta. rewrite Hre, He.
  cbv beta iota. rewrite Hg.
  destruct ms as [|m ms]; [reflexivity|].
  pose proof (grep_loop_spec os ctx Hc Hs re (m :: ms) [] (hc ++ [Fileops.OsGlob p])) as Hl.
  destruct (Fileops.grep_loop os ctx re (m :: ms) [] (hc ++ [Fileops.OsGlob p])) as [r calls].
  cbn [fst] in Hl |- *. subst r. cbn [app].
  destruct (flat_map (grep_file os re) (m :: ms)); reflexivity.
Qed.

(** Witness of [tool_loop_final_answer]: a response with a single message,
    answered in the last round and, with no round left, not inspected. *)
Lemma tool_loop_final_answer_witness :
  extractToolCalls resp_answer = [] /\
  tool_loop env_text "default" 1 resp_answer st0 =
    (if forallb (fun s => String.eqb s "") (text_parts (resp_Output resp_answer))
     then NewToolResultError "No text content in response"
     else NewToolResultText (extractTextContent resp_answer), st0) /\
  tool_loop env_text "default" 0 resp_answer st0 =
    (NewToolResultError "Max function call iterations reached", st0).
Proof.
  assert (H : extractToolCalls resp_answer = []) by reflexivity.
  destruct (tool_loop_final_answer env_text "default" 0 resp_answer st0) as [H1 H0].
  split; [exact H|]. split; [exact (H1 H)|exact H0].
Defined.

(** Witness of [Handle_leaves_other_conversations]: a pointer stored under
    "other" survives a fresh request on "default". *)
Lemma Handle_leaves_other_conversations_witness :
  "other" <> effective_id (GetString req_sum "conversation_id" "") /\
  conv (snd (Handle env_text req_sum {| conv := <["other" := "resp_9"]> (conv st_ptr); trace := [] |})) !! "other"
    = conv {| conv := <["other" := "resp_9"]> (conv st_ptr); trace := [] |} !! "other".
Proof.
  assert (H : "other" <> effective_id (GetString req_sum "conversation_id" "")) by (vm_compute; discriminate).
  split; [exact H|]. exact (Handle_leaves_other_conversations env_text req_sum _ "other" H).
Defined.

(** Witness of [ReadFile_rejects_files_over_limit]: a 6 MiB file. *)
Lemma ReadFile_rejects_files_over_limit_witness :
  never_cancelled 0 = None /\
  Fileops.expand_home os_big "/var/log/big.log" = (Ok "/var/log/big.log", []) /\
  Fileops.os_Stat os_big "/var/log/big.log" = Ok {| Fileops.fi_Size := 6 * 1024 * 1024; Fileops.fi_IsDir := false |} /\
  (Fileops.maxFileSize < 6 * 1024 * 1024)%Z /\
  Fileops.ReadFile os_big never_cancelled "/var/log/big.log" =
    (Err ("file too large (" +:+ pretty (6 * 1024 * 1024)%Z +:+ " bytes, max "
          +:+ pretty Fileops.maxFileSize +:+ " bytes): consider using grep_files instead"),
     [] ++ [Fileops.OsStat "/var/log/big.log"]).
Proof.
  assert (H0 : never_cancelled 0 = None) by reflexivity.
  assert (He : Fileops.expand_home os_big "/var/log/big.log" = (Ok "/var/log/big.log", [])) by reflexivity.
  assert (Hs : Fileops.os_Stat os_big "/var/log/big.log"
               = Ok {| Fileops.fi_Size := 6 * 1024 * 1024; Fileops.fi_IsDir := false |}) by reflexivity.
  assert (Hlt : (Fileops.maxFileSize < 6 * 1024 * 1024)%Z) by (vm_compute; reflexivity).
  split; [exact H0|]. split; [exact He|]. split; [exact Hs|]. split; [exact Hlt|].
  exact (ReadFile_rejects_files_over_limit os_big never_cancelled "/var/log/big.log" _ _ _ H0 He Hs Hlt).
Defined.

(** Witness of [GlobFiles_lists_matches] on [os0]. *)
Lemma GlobFiles_lists_matches_witness :
  (forall k, never_cancelled k = None) /\
  Fileops.expand_home os0 "/src/*.go" = (Ok "/src/*.go", []) /\
  Fileops.filepath_Glob os0 "/src/*.go" = Ok ["/src/*.go"] /\
  fst (Fileops.GlobFiles os0 never_cancelled "/src/*.go") =
    Ok (Fileops.Join (flat_map (glob_entry os0) ["/src/*.go"]) nl).
Proof.
  assert (Hc : forall k, never_cancelled k = None) by reflexivity.
  assert (He : Fileops.expand_home os0 "/src/*.go" = (Ok "/src/*.go", [])) by reflexivity.
  assert (Hg : Fileops.filepath_Glob os0 "/src/*.go" = Ok ["/src/*.go"]) by reflexivity.
  split; [exact Hc|]. split; [exact He|]. split; [exact Hg|].
  exact (GlobFiles_lists_matches os0 never_cancelled "/src/*.go" _ _ _ Hc He Hg).
Defined.

(** Witness of [GrepFiles_reports_matching_lines] on [os0]. *)
Lemma GrepFiles_reports_matching_lines_witness :
  (forall k, never_cancelled k = None) /\
  Fileops.regexp_Compile os0 ("" +:+ "line") = Ok (fun line => String.eqb line "line") /\
  Fileops.expand_home os0 "/src/*.go" = (Ok "/src/*.go", []) /\
  Fileops.filepath_Glob os0 "/src/*.go" = Ok ["/src/*.go"] /\
  (forall q lines e, Fileops.os_Open_scan os0 q <> Ok (lines, Some e)) /\
  fst (Fileops.GrepFiles os0 never_cancelled "line" "/src/*.go" false) =
    Ok (match flat_map (grep_file os0 (fun line => String.eqb line "line")) ["/src/*.go"] with
        | [] => "No matches found"
        | hits => Fileops.Join hits nl
        end).
Proof.
  assert (Hc : forall k, never_cancelled k = None) by reflexivity.
  assert (Hre : Fileops.regexp_Compile os0 ("" +:+ "line") = Ok (fun line => String.eqb line "line"))
    by reflexivity.
  assert (He : Fileops.expand_home os0 "/src/*.go" = (Ok "/src/*.go", [])) by reflexivity.
  assert (Hg : Fileops.filepath_Glob os0 "/src/*.go" = Ok ["/src/*.go"]) by reflexivity.
  assert (Hs : forall q lines e, Fileops.os_Open_scan os0 q <> Ok (lines, Some e))
    by (intros q lines e H; discriminate H).
  split; [exact Hc|]. split; [exact Hre|]. split; [exact He|]. split; [exact Hg|]. split; [exact Hs|].
  exact (GrepFiles_reports_matching_lines os0 never_cancelled "line" "/src/*.go" false _ _ _ _
           Hc Hre He Hg Hs).
Defined.

(** The pointer accessors: after setRespID, getRespID gives back the
    stored id; after clearRespID it gives the empty string, the value for
    "no pointer"; other conversation ids are unaffected by both. *)
Theorem respID_set_get_clear st cid id k :
  getRespID (setRespID st cid id) cid = id /\
  getRespID (clearRespID st cid) cid = "" /\
  (k <> cid -> getRespID (setRespID st cid id) k = getRespID st k /\
               getRespID (clearRespID st cid) k = getRespID st k).
Proof.
  unfold getRespID, setRespID, clearRespID; cbn [conv].
  rewrite lookup_insert_eq, lookup_delete_eq. split; [reflexivity|]. split; [reflexivity|].
  intros Hk. rewrite lookup_insert_ne, lookup_delete_ne by (intros E; apply Hk; symmetry; exact E).
  split; reflexivity.
Qed.
